(** * Scheduler: a tick-driven cooperative task scheduler

    Shallow embedding of [Scheduler.cpp] / [Scheduler.h].

    Modelling choices.
    - The singly linked list that starts at [schedule_root_node] is the Rocq
      list of its nodes, in link order.  A non-NULL node pointer is the
      position of the node in that list; NULL is [None].  A function that
      only reads the node it is given takes the node itself.
    - [ScheduleProfile] records live in a separate store ([prof_heap]) and a
      node holds the address of its record in [prof_data], as in the source:
      [free] removes the record from the store and does not touch any pointer
      that still holds the address.
    - [uint32_t] and [int16_t] values are integers of [Z]; the wrap-around of
      [++] and [--] is written out ([wrap32], [wrap16]).
    - Behaviour that C++ leaves undefined (reading, writing or freeing a
      record that has been freed, writing through a failed [malloc]) is the
      result [None].
    - A service function is opaque: invoking it is recorded as an [event]
      and, in this model, it does not call back into the scheduler.  The
      marker [currently_executing] is a field of the state, so what the
      operations do while a service function runs is stated on states whose
      marker is set.
    - [micros()] and [malloc] are external: the readings of the clock and the
      success of an allocation are arguments of the operations. *)

From stdpp Require Import base option list gmap.
From Stdlib Require Import ZArith Lia.

Local Open Scope Z_scope.

(** ** Machine integers *)

(** Arithmetic on [uint32_t] is modulo 2^32. *)
Definition wrap32 (x : Z) : Z := x mod 2 ^ 32.

(** The conversion to [int16_t] after [--]: two's complement wrap-around. *)
Definition wrap16 (x : Z) : Z := (x + 2 ^ 15) mod 2 ^ 16 - 2 ^ 15.

Definition uint32_range (x : Z) : Prop := 0 <= x < 2 ^ 32.

Definition int16_range (x : Z) : Prop := - 2 ^ 15 <= x < 2 ^ 15.

(** ** Data model *)

(** The [FunctionPointer] typedef (a pointer to a function without
    arguments or result): a non-NULL pointer is the code address of the
    service function; NULL is [None]. *)
Definition FunctionPointer : Type := option positive.

(** The address of a [ScheduleProfile] in the store. *)
Abbreviation prof_addr := positive (only parsing).

Record ScheduleProfile : Type := mkScheduleProfile {
  last_time_micros  : Z;
  worst_time_micros : Z;
  best_time_micros  : Z;
  execution_count   : Z;
  profiling_active  : bool
}.

(** [struct sch_item_t]; the [next] link is the tail of the list. *)
Record ScheduleItem : Type := mkScheduleItem {
  prof_data           : option prof_addr;
  pid                 : Z;
  thread_time_to_wait : Z;
  thread_period       : Z;
  thread_recurs       : Z;
  thread_enabled      : bool;
  thread_fire         : bool;
  autoclear           : bool;
  schedule_callback   : FunctionPointer
}.

Record Scheduler : Type := mkScheduler {
  next_pid            : Z;
  schedule_root_node  : list ScheduleItem;
  currently_executing : Z;
  productive_loops    : Z;
  total_loops         : Z;
  overhead            : Z;
  prof_heap           : gmap prof_addr ScheduleProfile
}.

(** The four readings of [micros()] that one call of
    [serviceScheduledEvents] can make, in program order. *)
Record Clock : Type := mkClock {
  origin_time        : Z;
  profile_start_time : Z;
  profile_last_time  : Z;
  finish_time        : Z
}.

(** One invocation of a service function. *)
Record event : Type := Invoke {
  ev_pid      : Z;
  ev_callback : positive
}.

#[export] Instance ScheduleProfile_eq_dec : EqDecision ScheduleProfile.
Proof. solve_decision. Defined.

#[export] Instance ScheduleItem_eq_dec : EqDecision ScheduleItem.
Proof. solve_decision. Defined.

#[export] Instance event_eq_dec : EqDecision event.
Proof. solve_decision. Defined.

(** *** Field updates *)

Definition set_prof_data (v : option prof_addr) (it : ScheduleItem) : ScheduleItem :=
  mkScheduleItem v (pid it) (thread_time_to_wait it) (thread_period it)
    (thread_recurs it) (thread_enabled it) (thread_fire it) (autoclear it)
    (schedule_callback it).

Definition set_thread_time_to_wait (v : Z) (it : ScheduleItem) : ScheduleItem :=
  mkScheduleItem (prof_data it) (pid it) v (thread_period it)
    (thread_recurs it) (thread_enabled it) (thread_fire it) (autoclear it)
    (schedule_callback it).

Definition set_thread_period (v : Z) (it : ScheduleItem) : ScheduleItem :=
  mkScheduleItem (prof_data it) (pid it) (thread_time_to_wait it) v
    (thread_recurs it) (thread_enabled it) (thread_fire it) (autoclear it)
    (schedule_callback it).

Definition set_thread_recurs (v : Z) (it : ScheduleItem) : ScheduleItem :=
  mkScheduleItem (prof_data it) (pid it) (thread_time_to_wait it)
    (thread_period it) v (thread_enabled it) (thread_fire it) (autoclear it)
    (schedule_callback it).

Definition set_thread_enabled (v : bool) (it : ScheduleItem) : ScheduleItem :=
  mkScheduleItem (prof_data it) (pid it) (thread_time_to_wait it)
    (thread_period it) (thread_recurs it) v (thread_fire it) (autoclear it)
    (schedule_callback it).

Definition set_thread_fire (v : bool) (it : ScheduleItem) : ScheduleItem :=
  mkScheduleItem (prof_data it) (pid it) (thread_time_to_wait it)
    (thread_period it) (thread_recurs it) (thread_enabled it) v (autoclear it)
    (schedule_callback it).

Definition set_autoclear (v : bool) (it : ScheduleItem) : ScheduleItem :=
  mkScheduleItem (prof_data it) (pid it) (thread_time_to_wait it)
    (thread_period it) (thread_recurs it) (thread_enabled it) (thread_fire it)
    v (schedule_callback it).

Definition set_schedule_callback (v : FunctionPointer) (it : ScheduleItem) : ScheduleItem :=
  mkScheduleItem (prof_data it) (pid it) (thread_time_to_wait it)
    (thread_period it) (thread_recurs it) (thread_enabled it) (thread_fire it)
    (autoclear it) v.

Definition set_next_pid (v : Z) (s : Scheduler) : Scheduler :=
  mkScheduler v (schedule_root_node s) (currently_executing s)
    (productive_loops s) (total_loops s) (overhead s) (prof_heap s).

Definition set_schedule_root_node (v : list ScheduleItem) (s : Scheduler) : Scheduler :=
  mkScheduler (next_pid s) v (currently_executing s)
    (productive_loops s) (total_loops s) (overhead s) (prof_heap s).

Definition set_currently_executing (v : Z) (s : Scheduler) : Scheduler :=
  mkScheduler (next_pid s) (schedule_root_node s) v
    (productive_loops s) (total_loops s) (overhead s) (prof_heap s).

Definition set_productive_loops (v : Z) (s : Scheduler) : Scheduler :=
  mkScheduler (next_pid s) (schedule_root_node s) (currently_executing s)
    v (total_loops s) (overhead s) (prof_heap s).

Definition set_total_loops (v : Z) (s : Scheduler) : Scheduler :=
  mkScheduler (next_pid s) (schedule_root_node s) (currently_executing s)
    (productive_loops s) v (overhead s) (prof_heap s).

Definition set_overhead (v : Z) (s : Scheduler) : Scheduler :=
  mkScheduler (next_pid s) (schedule_root_node s) (currently_executing s)
    (productive_loops s) (total_loops s) v (prof_heap s).

Definition set_prof_heap (v : gmap prof_addr ScheduleProfile) (s : Scheduler) : Scheduler :=
  mkScheduler (next_pid s) (schedule_root_node s) (currently_executing s)
    (productive_loops s) (total_loops s) (overhead s) v.

(** [obj->field = v] for the node at position [i]. *)
Definition update_node (i : nat) (f : ScheduleItem -> ScheduleItem) (s : Scheduler) : Scheduler :=
  set_schedule_root_node (alter f i (schedule_root_node s)) s.

(** The object a node pointer refers to. *)
Definition deref (s : Scheduler) (p : option nat) : option ScheduleItem :=
  p ≫= (fun i => schedule_root_node s !! i).

(** Modelled from the spec: the class declaration under src/ does not
    declare [currently_executing]; its start value is 0, the reserved
    "no schedule" PID, which is also the value [serviceScheduledEvents]
    restores after each service function. *)
Definition initial_currently_executing : Z := 0.

(** Modelled from the spec: the class declaration under src/ does not
    declare [overhead], the measured cost of the last dispatch call; it
    starts as 0 like the two loop counters. *)
Definition initial_overhead : Z := 0.

(** The state a [Scheduler] object starts in: the header initialises
    [next_pid] to 1, the root to NULL and both loop counters to 0. *)
Definition Scheduler_init : Scheduler :=
  mkScheduler 1 [] initial_currently_executing 0 0 initial_overhead ∅.

(** ** Profiling data *)

(** The record [beginProfiling] initialises. *)
Definition fresh_profile : ScheduleProfile :=
  mkScheduleProfile 0 0 4294967295 0 true.

(** [beginProfiling] on a node pointer.  [malloc_ok] tells whether [malloc]
    returns a block; if it does not, the function writes through NULL. *)
Definition beginProfiling_node (target : option nat) (malloc_ok : bool)
    (s : Scheduler) : option Scheduler :=
  match target with
  | None => Some s
  | Some i =>
      it ← schedule_root_node s !! i;
      match prof_data it with
      | Some _ => Some s
      | None =>
          if malloc_ok then
            let p_data := fresh (dom (prof_heap s)) in
            Some (set_prof_heap (<[p_data := fresh_profile]> (prof_heap s))
                    (update_node i (set_prof_data (Some p_data)) s))
          else None
      end
  end.

(** [stopProfiling] on a node pointer: the node is only read. *)
Definition stopProfiling_node (obj : option ScheduleItem) (s : Scheduler)
    : option Scheduler :=
  match obj with
  | None => Some s
  | Some it =>
      match prof_data it with
      | None => Some s
      | Some a =>
          p ← prof_heap s !! a;
          Some (set_prof_heap
                  (<[a := mkScheduleProfile (last_time_micros p)
                            (worst_time_micros p) (best_time_micros p)
                            (execution_count p) false]> (prof_heap s)) s)
      end
  end.

(** [clearProfilingData] on a node pointer: [free(p_data)] releases the
    record; [p_data = NULL] assigns the local variable and nothing else, so
    the node is left as it was. *)
Definition clearProfilingData_node (obj : option ScheduleItem) (s : Scheduler)
    : option Scheduler :=
  match obj with
  | None => Some s
  | Some it =>
      match prof_data it with
      | None => Some s
      | Some a =>
          _ ← prof_heap s !! a;
          Some (set_prof_heap (delete a (prof_heap s)) s)
      end
  end.

(** [scheduleBeingProfiled] on a node pointer. *)
Definition scheduleBeingProfiled_node (obj : option ScheduleItem) (s : Scheduler)
    : option bool :=
  match obj with
  | None => Some false
  | Some it =>
      match prof_data it with
      | None => Some false
      | Some a => profiling_active <$> prof_heap s !! a
      end
  end.

(** ** Linked-list helpers *)

Fixpoint find_pid_from (l : list ScheduleItem) (g_pid : Z) (idx : nat) : option nat :=
  match l with
  | [] => None
  | current :: l' =>
      if pid current =? g_pid then Some idx
      else find_pid_from l' g_pid (S idx)
  end.

(** [findNodeByPID]: the first node with the given PID, or NULL. *)
Definition findNodeByPID (g_pid : Z) (s : Scheduler) : option nat :=
  find_pid_from (schedule_root_node s) g_pid 0.

(** [current->next == target]: the node after [current] is the head of [l']
    and has position [S idx]; at the last node [next] is NULL. *)
Fixpoint find_before_from (l : list ScheduleItem) (target : nat) (idx : nat) : option nat :=
  match l with
  | [] => None
  | _ :: l' =>
      if (match l' with [] => false | _ :: _ => Nat.eqb (S idx) target end)
      then Some idx
      else find_before_from l' target (S idx)
  end.

Definition findNodeBeforeThisOne (target : nat) (s : Scheduler) : option nat :=
  find_before_from (schedule_root_node s) target 0.

(** [destroyScheduleItem]: unlink the node (after its predecessor, or at the
    root), release its profiling data and free it. *)
Definition destroyScheduleItem (r_node : option nat) (s : Scheduler) : option Scheduler :=
  match r_node with
  | None => Some s
  | Some i =>
      it ← schedule_root_node s !! i;
      let l := schedule_root_node s in
      let s1 :=
        match findNodeBeforeThisOne i s with
        | Some j => set_schedule_root_node (take (S j) l ++ drop (S i) l) s
        | None =>
            if Nat.eqb i 0 then set_schedule_root_node (drop 1 l) s else s
        end in
      clearProfilingData_node (Some it) s1
  end.

(** The walk to the last node in [insertScheduleItemAtEnd]. *)
Fixpoint link_after_last (l : list ScheduleItem) (nu : ScheduleItem) : list ScheduleItem :=
  match l with
  | [] => [nu]
  | temp :: l' =>
      match l' with
      | [] => [temp; nu]
      | _ :: _ => temp :: link_after_last l' nu
      end
  end.

(** [insertScheduleItemAtEnd]; the result is [false] when the node became the
    root. *)
Definition insertScheduleItemAtEnd (nu : ScheduleItem) (s : Scheduler) : Scheduler * bool :=
  match schedule_root_node s with
  | _ :: _ => (set_schedule_root_node (link_after_last (schedule_root_node s) nu) s, true)
  | [] => (set_schedule_root_node [nu] s, false)
  end.

(** ** PIDs *)

(** [get_valid_new_pid] calls itself while it draws 0; [fuel] bounds the
    depth of the calls. *)
Fixpoint get_valid_new_pid_fuel (fuel : nat) (s : Scheduler) : option (Z * Scheduler) :=
  match fuel with
  | O => None
  | S fuel' =>
      let return_value := next_pid s in
      let s1 := set_next_pid (wrap32 (next_pid s + 1)) s in
      if return_value =? 0 then get_valid_new_pid_fuel fuel' s1
      else Some (return_value, s1)
  end.

(** Two calls are enough: after 0 the counter holds 1. *)
Definition get_valid_new_pid (s : Scheduler) : Z * Scheduler :=
  match get_valid_new_pid_fuel 2 s with
  | Some r => r
  | None => (0, s)
  end.

Definition peekNextPID (s : Scheduler) : Z := next_pid s.

(** ** Creating and altering schedules *)

(** [createSchedule]; [malloc_ok] tells whether [malloc] returns a block. *)
Definition createSchedule (sch_period : Z) (recurrence : Z) (ac : bool)
    (sch_callback : FunctionPointer) (malloc_ok : bool) (s : Scheduler)
    : Z * Scheduler :=
  if 1 <? sch_period then
    match sch_callback with
    | Some _ =>
        if malloc_ok then
          let '(new_pid, s1) := get_valid_new_pid s in
          let nu_sched :=
            mkScheduleItem None new_pid sch_period sch_period recurrence
              true false ac sch_callback in
          (new_pid, fst (insertScheduleItemAtEnd nu_sched s1))
        else (0, s)
    | None => (0, s)
    end
  else (0, s).

(** [alterSchedule] on a node pointer. *)
Definition alterSchedule_node (obj : option nat) (sch_period : Z) (recurrence : Z)
    (ac : bool) (sch_callback : FunctionPointer) (s : Scheduler) : Scheduler * bool :=
  if 1 <? sch_period then
    match sch_callback, obj with
    | Some _, Some i =>
        (update_node i
           (fun it => set_schedule_callback sch_callback
                        (set_autoclear ac
                          (set_thread_time_to_wait sch_period
                            (set_thread_period sch_period
                              (set_thread_recurs recurrence
                                (set_thread_fire false it)))))) s, true)
    | _, _ => (s, false)
    end
  else (s, false).

Definition alterSchedule (g_pid : Z) (sch_period : Z) (recurrence : Z)
    (ac : bool) (sch_callback : FunctionPointer) (s : Scheduler) : Scheduler * bool :=
  alterSchedule_node (findNodeByPID g_pid s) sch_period recurrence ac sch_callback s.

Definition alterSchedule_autoclear (schedule_index : Z) (ac : bool) (s : Scheduler)
    : Scheduler * bool :=
  match findNodeByPID schedule_index s with
  | Some i => (update_node i (set_autoclear ac) s, true)
  | None => (s, false)
  end.

Definition alterSchedule_callback (schedule_index : Z) (sch_callback : FunctionPointer)
    (s : Scheduler) : Scheduler * bool :=
  match sch_callback with
  | Some _ =>
      match findNodeByPID schedule_index s with
      | Some i => (update_node i (set_schedule_callback sch_callback) s, true)
      | None => (s, false)
      end
  | None => (s, false)
  end.

Definition alterSchedulePeriod (schedule_index : Z) (sch_period : Z) (s : Scheduler)
    : Scheduler * bool :=
  if 1 <? sch_period then
    match findNodeByPID schedule_index s with
    | Some i =>
        (update_node i
           (fun it => set_thread_time_to_wait sch_period
                        (set_thread_period sch_period
                          (set_thread_fire false it))) s, true)
    | None => (s, false)
    end
  else (s, false).

Definition alterScheduleRecurrence (schedule_index : Z) (recurrence : Z) (s : Scheduler)
    : Scheduler * bool :=
  match findNodeByPID schedule_index s with
  | Some i =>
      (update_node i
         (fun it => set_thread_recurs recurrence (set_thread_fire false it)) s, true)
  | None => (s, false)
  end.

(** ** Queries *)

Definition willRunAgain (g_pid : Z) (s : Scheduler) : bool :=
  match deref s (findNodeByPID g_pid s) with
  | Some nu_sched =>
      if thread_enabled nu_sched then
        if (thread_recurs nu_sched =? -1) || (0 <? thread_recurs nu_sched)
        then true else false
      else false
  | None => false
  end.

Definition scheduleEnabled (g_pid : Z) (s : Scheduler) : bool :=
  match deref s (findNodeByPID g_pid s) with
  | Some nu_sched => thread_enabled nu_sched
  | None => false
  end.

(** The public profiling functions look the node up by PID. *)
Definition beginProfiling (g_pid : Z) (malloc_ok : bool) (s : Scheduler) : option Scheduler :=
  beginProfiling_node (findNodeByPID g_pid s) malloc_ok s.

Definition stopProfiling (g_pid : Z) (s : Scheduler) : option Scheduler :=
  stopProfiling_node (deref s (findNodeByPID g_pid s)) s.

Definition clearProfilingData (g_pid : Z) (s : Scheduler) : option Scheduler :=
  clearProfilingData_node (deref s (findNodeByPID g_pid s)) s.

Definition scheduleBeingProfiled (g_pid : Z) (s : Scheduler) : option bool :=
  scheduleBeingProfiled_node (deref s (findNodeByPID g_pid s)) s.

(** ** Enable, disable, delay *)

Definition enableSchedule (g_pid : Z) (s : Scheduler) : Scheduler * bool :=
  match findNodeByPID g_pid s with
  | Some i => (update_node i (set_thread_enabled true) s, true)
  | None => (s, false)
  end.

Definition delaySchedule_node (obj : option nat) (by_ms : Z) (s : Scheduler)
    : Scheduler * bool :=
  match obj with
  | Some i =>
      (update_node i
         (fun it => set_thread_enabled true (set_thread_time_to_wait by_ms it)) s,
       true)
  | None => (s, false)
  end.

Definition delaySchedule_by (g_pid : Z) (by_ms : Z) (s : Scheduler) : Scheduler * bool :=
  match findNodeByPID g_pid s with
  | Some i => (fst (delaySchedule_node (Some i) by_ms s), true)
  | None => (s, false)
  end.

Definition delaySchedule (g_pid : Z) (s : Scheduler) : Scheduler * bool :=
  match findNodeByPID g_pid s with
  | Some i =>
      match schedule_root_node s !! i with
      | Some nu_sched =>
          (fst (delaySchedule_node (Some i) (thread_period nu_sched) s), true)
      | None => (s, true)
      end
  | None => (s, false)
  end.

Definition disable_node (it : ScheduleItem) : ScheduleItem :=
  set_thread_time_to_wait (thread_period it)
    (set_thread_fire false (set_thread_enabled false it)).

Definition disableSchedule (g_pid : Z) (s : Scheduler) : Scheduler * bool :=
  match findNodeByPID g_pid s with
  | Some i => (update_node i disable_node s, true)
  | None => (s, false)
  end.

(** ** The tick *)

(** The body of the loop of [advanceScheduler]. *)
Definition advance_node (current : ScheduleItem) : ScheduleItem :=
  if thread_enabled current then
    if 0 <? thread_time_to_wait current
    then set_thread_time_to_wait (thread_time_to_wait current - 1) current
    else set_thread_time_to_wait (thread_period current)
           (set_thread_fire true current)
  else current.

Definition advanceScheduler (s : Scheduler) : Scheduler :=
  set_schedule_root_node (map advance_node (schedule_root_node s)) s.

(** ** Removal *)

Definition removeSchedule (g_pid : Z) (s : Scheduler) : option (Scheduler * bool) :=
  match findNodeByPID g_pid s with
  | Some i =>
      obj ← schedule_root_node s !! i;
      if negb (pid obj =? currently_executing s) then
        s' ← destroyScheduleItem (Some i) s;
        Some (s', true)
      else
        Some (update_node i
                (fun it => set_thread_recurs 0 (set_autoclear true it)) s, true)
  | None => Some (s, true)
  end.

(** ** Dispatch *)

(** The profiling sample taken after the service function returns. *)
Definition profile_sample (clk : Clock) (p : ScheduleProfile) : ScheduleProfile :=
  let last := Z.max (profile_start_time clk) (profile_last_time clk)
              - Z.min (profile_start_time clk) (profile_last_time clk) in
  mkScheduleProfile last
    (Z.max (worst_time_micros p) last)
    (Z.min (best_time_micros p) last)
    (wrap32 (execution_count p + 1))
    (profiling_active p).

(** The call of the service function of [current], with the profiling
    around it. *)
Definition execute_node (current : ScheduleItem) (clk : Clock) (s : Scheduler)
    : option (Scheduler * list event) :=
  match schedule_callback current with
  | Some f =>
      _ ← scheduleBeingProfiled_node (Some current) s;
      let s_running := set_currently_executing (pid current) s in
      let s_done := set_currently_executing 0 s_running in
      profiled ← scheduleBeingProfiled_node (Some current) s_done;
      if (profiled : bool) then
        a ← prof_data current;
        p ← prof_heap s_done !! a;
        Some (set_prof_heap (<[a := profile_sample clk p]> (prof_heap s_done)) s_done,
              [Invoke (pid current) f])
      else Some (s_done, [Invoke (pid current) f])
  | None => Some (s, [])
  end.

(** The [switch] on [thread_recurs] for the node at position [i]. *)
Definition apply_recurrence (i : nat) (current : ScheduleItem) (s : Scheduler)
    : option Scheduler :=
  if thread_recurs current =? -1 then Some s
  else if thread_recurs current =? 0 then
    if autoclear current then destroyScheduleItem (Some i) s
    else Some (update_node i disable_node s)
  else
    Some (update_node i
            (fun it => set_thread_recurs (wrap16 (thread_recurs it - 1)) it) s).

(** The body of [if (current->thread_fire)], up to the [break]. *)
Definition service_node (i : nat) (current : ScheduleItem) (clk : Clock)
    (s : Scheduler) : option (Scheduler * list event) :=
  '(s1, evs) ← execute_node current clk s;
  let s2 := update_node i (set_thread_fire false) s1 in
  s3 ← apply_recurrence i current s2;
  Some (set_productive_loops (wrap32 (productive_loops s3 + 1)) s3, evs).

(** The [while] loop: [rest] is the list from [current] on and [idx] the
    position of [current]. *)
Fixpoint service_scan (rest : list ScheduleItem) (idx : nat) (clk : Clock)
    (s : Scheduler) : option (Scheduler * list event) :=
  match rest with
  | [] => Some (s, [])
  | current :: rest' =>
      if thread_fire current then service_node idx current clk s
      else service_scan rest' (S idx) clk s
  end.

Definition serviceScheduledEvents (clk : Clock) (s : Scheduler)
    : option (Scheduler * list event) :=
  '(s1, evs) ← service_scan (schedule_root_node s) 0 clk s;
  Some (set_total_loops (wrap32 (total_loops s1 + 1))
          (set_overhead (wrap32 (finish_time clk - origin_time clk)) s1), evs).

(** ** The operations as one transition function *)

Inductive api_call : Type :=
  | CreateSchedule (sch_period recurrence : Z) (ac : bool)
      (sch_callback : FunctionPointer) (malloc_ok : bool)
  | AlterSchedule (g_pid sch_period recurrence : Z) (ac : bool)
      (sch_callback : FunctionPointer)
  | AlterScheduleAutoclear (g_pid : Z) (ac : bool)
  | AlterScheduleCallback (g_pid : Z) (sch_callback : FunctionPointer)
  | AlterSchedulePeriod (g_pid sch_period : Z)
  | AlterScheduleRecurrence (g_pid recurrence : Z)
  | EnableSchedule (g_pid : Z)
  | DisableSchedule (g_pid : Z)
  | DelayScheduleBy (g_pid by_ms : Z)
  | DelaySchedule (g_pid : Z)
  | RemoveSchedule (g_pid : Z)
  | AdvanceScheduler
  | ServiceScheduledEvents (clk : Clock)
  | BeginProfiling (g_pid : Z) (malloc_ok : bool)
  | StopProfiling (g_pid : Z)
  | ClearProfilingData (g_pid : Z).

(** The state after a call; [None] when the call runs into undefined
    behaviour. *)
Definition exec (c : api_call) (s : Scheduler) : option Scheduler :=
  match c with
  | CreateSchedule p r ac cb ok => Some (snd (createSchedule p r ac cb ok s))
  | AlterSchedule g p r ac cb => Some (fst (alterSchedule g p r ac cb s))
  | AlterScheduleAutoclear g ac => Some (fst (alterSchedule_autoclear g ac s))
  | AlterScheduleCallback g cb => Some (fst (alterSchedule_callback g cb s))
  | AlterSchedulePeriod g p => Some (fst (alterSchedulePeriod g p s))
  | AlterScheduleRecurrence g r => Some (fst (alterScheduleRecurrence g r s))
  | EnableSchedule g => Some (fst (enableSchedule g s))
  | DisableSchedule g => Some (fst (disableSchedule g s))
  | DelayScheduleBy g t => Some (fst (delaySchedule_by g t s))
  | DelaySchedule g => Some (fst (delaySchedule g s))
  | RemoveSchedule g => fst <$> removeSchedule g s
  | AdvanceScheduler => Some (advanceScheduler s)
  | ServiceScheduledEvents clk => fst <$> serviceScheduledEvents clk s
  | BeginProfiling g ok => beginProfiling g ok s
  | StopProfiling g => stopProfiling g s
  | ClearProfilingData g => clearProfilingData g s
  end.

(** A sequence of calls, each on the state the one before returned. *)
Fixpoint run (cs : list api_call) (s : Scheduler) : option Scheduler :=
  match cs with
  | [] => Some s
  | c :: cs' => s' ← exec c s; run cs' s'
  end.

(** ** Predicates of the specification *)

(** The profiling pointer of a node is NULL or refers to a record that has
    not been freed. *)
Definition profile_live (s : Scheduler) (it : ScheduleItem) : Prop :=
  match prof_data it with
  | None => True
  | Some a => is_Some (prof_heap s !! a)
  end.

Definition profiles_live (s : Scheduler) : Prop :=
  Forall (profile_live s) (schedule_root_node s).

(** The reset invariant of disabled items. *)
Definition reset_ok (it : ScheduleItem) : Prop :=
  thread_enabled it = false ->
  thread_time_to_wait it = thread_period it /\ thread_fire it = false.

Definition reset_invariant (s : Scheduler) : Prop :=
  Forall reset_ok (schedule_root_node s).

(** What [free] leaves of the store. *)
Definition heap_without (o : option prof_addr) (h : gmap prof_addr ScheduleProfile)
    : gmap prof_addr ScheduleProfile :=
  match o with
  | Some a => delete a h
  | None => h
  end.

(** [k] ticks. *)
Definition ticks (k : nat) (s : Scheduler) : Scheduler :=
  Nat.iter k advanceScheduler s.

(** The due flag of the node at position [i] after [n] more ticks. *)
Definition due_after (n : nat) (i : nat) (s : Scheduler) : bool :=
  match schedule_root_node (ticks n s) !! i with
  | Some it => thread_fire it
  | None => false
  end.

(** The invocations one service of the node makes: one call of its
    service function, none when the pointer is NULL. *)
Definition invocation (it : ScheduleItem) : list event :=
  match schedule_callback it with
  | Some f => [Invoke (pid it) f]
  | None => []
  end.

(** What the dispatch leaves of the node it serviced: nothing when the node
    is reaped, else the node after the recurrence policy. *)
Definition after_service (a : ScheduleItem) : list ScheduleItem :=
  if thread_recurs a =? -1 then [set_thread_fire false a]
  else if thread_recurs a =? 0 then
    if autoclear a then [] else [disable_node a]
  else [set_thread_recurs (wrap16 (thread_recurs a - 1)) (set_thread_fire false a)].

Definition not_due (it : ScheduleItem) : Prop := thread_fire it = false.

(** The two nodes do not hold the address of one profiling record. *)
Definition separate_profiles (a b : ScheduleItem) : Prop :=
  prof_data b = None \/ prof_data b <> prof_data a.

(** The addresses of profiling records that the nodes of a list hold. *)
Definition profile_pointers (l : list ScheduleItem) : list positive :=
  omap prof_data l.

(** Every profiling pointer refers to a live record and no record is held
    by two nodes. *)
Definition profiles_wf (s : Scheduler) : Prop :=
  profiles_live s /\ NoDup (profile_pointers (schedule_root_node s)).

(** The node is reaped by the dispatch that services it. *)
Definition reaped (a : ScheduleItem) : bool :=
  negb (thread_recurs a =? -1) && (thread_recurs a =? 0) && autoclear a.

Definition clears_profile (c : api_call) : bool :=
  match c with
  | ClearProfilingData _ => true
  | _ => false
  end.

(** The states the API reaches from the initial state without a call of
    [clearProfilingData]. *)
Inductive reachable : Scheduler -> Prop :=
  | reachable_init : reachable Scheduler_init
  | reachable_step c s s' :
      reachable s -> clears_profile c = false -> exec c s = Some s' ->
      reachable s'.

(** ** Sample data *)

Definition demo_item (g_pid ttw period recurs : Z) (en fire ac : bool) : ScheduleItem :=
  mkScheduleItem None g_pid ttw period recurs en fire ac (Some 1%positive).

(** A scheduler with one schedule, PID 1, that is being profiled: the state
    after [createSchedule(10, -1, false, f)] and [beginProfiling(1)]. *)
Definition profiled_item : ScheduleItem :=
  mkScheduleItem (Some 1%positive) 1 10 10 (-1) true false false (Some 1%positive).

Definition profiled_state : Scheduler :=
  mkScheduler 2 [profiled_item] 0 0 0 0 {[ 1%positive := fresh_profile ]}.

(** The same scheduler after [clearProfilingData(1)]: the record is freed
    and the node still holds its address. *)
Definition cleared_state : Scheduler :=
  mkScheduler 2 [profiled_item] 0 0 0 0 ∅.

(** The calls that read or write profiling data only. *)
Definition is_profiling_call (c : api_call) : bool :=
  match c with
  | BeginProfiling _ _ | StopProfiling _ | ClearProfilingData _ => true
  | _ => false
  end.

(** ** Counting and teardown *)

(** Arithmetic on [uint16_t] is modulo 2^16. *)
Definition wrap_u16 (x : Z) : Z := x mod 2 ^ 16.

(** The loop of [getTotalSchedules]: [return_value++] for every node. *)
Fixpoint count_nodes_from (l : list ScheduleItem) (return_value : Z) : Z :=
  match l with
  | [] => return_value
  | _ :: l' => count_nodes_from l' (wrap_u16 (return_value + 1))
  end.

Definition getTotalSchedules (s : Scheduler) : Z :=
  count_nodes_from (schedule_root_node s) 0.

(** The loop of [getActiveSchedules]: [return_value++] for every enabled
    node. *)
Fixpoint count_enabled_from (l : list ScheduleItem) (return_value : Z) : Z :=
  match l with
  | [] => return_value
  | current :: l' =>
      count_enabled_from l'
        (if thread_enabled current then wrap_u16 (return_value + 1)
         else return_value)
  end.

Definition getActiveSchedules (s : Scheduler) : Z :=
  count_enabled_from (schedule_root_node s) 0.

(** The loop of [destroyAllScheduleItems]: the profiling data of every node
    is released and the node is freed. *)
Fixpoint destroy_all_from (l : list ScheduleItem) (s : Scheduler) : option Scheduler :=
  match l with
  | [] => Some s
  | temp0 :: temp1 =>
      s1 ← clearProfilingData_node (Some temp0) s;
      destroy_all_from temp1 s1
  end.

(** [destroyAllScheduleItems], the body of the destructor.  The nodes are
    freed and [schedule_root_node] is not reset, so no list is left to
    return: the result is the store of profiling records the call leaves. *)
Definition destroyAllScheduleItems (s : Scheduler)
    : option (gmap positive ScheduleProfile) :=
  prof_heap <$> destroy_all_from (schedule_root_node s) s.

(** ** The driver loop and further predicates *)



(** The store after the service function of [a] has run: the record of [a]
    takes a sample when it is active. *)
Definition sampled_heap (clk : Clock) (a : ScheduleItem)
    (h : gmap positive ScheduleProfile) : gmap positive ScheduleProfile :=
  match schedule_callback a, prof_data a with
  | Some _, Some pa =>
      match h !! pa with
      | Some p => if profiling_active p then <[pa := profile_sample clk p]> h else h
      | None => h
      end
  | _, _ => h
  end.

(** The state one dispatch leaves when [a], between [l1] and [l2], is the
    first due node. *)
Definition serviced_state (clk : Clock) (s : Scheduler)
    (l1 : list ScheduleItem) (a : ScheduleItem) (l2 : list ScheduleItem)
    : Scheduler :=
  mkScheduler (next_pid s) (l1 ++ after_service a ++ l2)
    (match schedule_callback a with
     | Some _ => 0
     | None => currently_executing s
     end)
    (wrap32 (productive_loops s + 1))
    (wrap32 (total_loops s + 1))
    (wrap32 (finish_time clk - origin_time clk))
    (if reaped a
     then heap_without (prof_data a) (sampled_heap clk a (prof_heap s))
     else sampled_heap clk a (prof_heap s)).

(** The PIDs of the list are distinct, positive and below the counter. *)
Definition pids_fresh (s : Scheduler) : Prop :=
  0 < next_pid s /\
  Forall (fun it => 0 < pid it < next_pid s) (schedule_root_node s) /\
  NoDup (map pid (schedule_root_node s)).

(** No service function is running and no node has the reserved PID 0. *)
Definition idle (s : Scheduler) : Prop :=
  currently_executing s = 0 /\
  Forall (fun it => pid it <> 0) (schedule_root_node s).

(** Every record of the store is held by a node. *)
Definition heap_owned (s : Scheduler) : Prop :=
  forall a, a ∈ dom (prof_heap s) ->
            a ∈ profile_pointers (schedule_root_node s).

(** A record as [beginProfiling] leaves it, or one whose best and worst
    times bracket the last one. *)
Definition profile_ok (p : ScheduleProfile) : Prop :=
  (last_time_micros p = 0 /\ worst_time_micros p = 0 /\
   best_time_micros p = 4294967295 /\ execution_count p = 0) \/
  (best_time_micros p <= last_time_micros p <= worst_time_micros p).

Definition creates_schedule (c : api_call) : bool :=
  match c with
  | CreateSchedule _ _ _ _ _ => true
  | _ => false
  end.

Definition services_events (c : api_call) : bool :=
  match c with
  | ServiceScheduledEvents _ => true
  | _ => false
  end.

(** The two states agree on the PID counter, the execution marker and the
    dispatch counters. *)
Definition same_scalars (s s' : Scheduler) : Prop :=
  next_pid s' = next_pid s /\
  currently_executing s' = currently_executing s /\
  productive_loops s' = productive_loops s /\
  total_loops s' = total_loops s /\
  overhead s' = overhead s.



(** ** Lemmas on the list helpers *)

Section ListHelpers.

Implicit Types (l : list ScheduleItem) (it nu : ScheduleItem).

Lemma find_pid_from_Some l g k i :
  find_pid_from l g k = Some i ->
  exists l1 it l2,
    l = l1 ++ it :: l2 /\ i = (k + length l1)%nat /\ pid it = g /\
    Forall (fun x => pid x <> g) l1.
Proof.
  revert k. induction l as [|x l IH]; intros k; simpl; [discriminate|].
  destruct (Z.eqb_spec (pid x) g) as [Heq|Hne].
  - intros [= <-]. exists [], x, l. simpl. split_and!; auto with lia.
  - intros H. apply IH in H as (l1 & it & l2 & -> & -> & Hp & Hall).
    exists (x :: l1), it, l2. simpl. split_and!; auto with lia.
Qed.

Lemma find_pid_from_app l1 it l2 k :
  Forall (fun x => pid x <> pid it) l1 ->
  find_pid_from (l1 ++ it :: l2) (pid it) k = Some (k + length l1)%nat.
Proof.
  revert k. induction l1 as [|x l1 IH]; intros k Hall; simpl.
  - rewrite Z.eqb_refl. f_equal. lia.
  - inversion Hall as [|? ? Hx Hl1]; subst.
    destruct (Z.eqb_spec (pid x) (pid it)); [contradiction|].
    rewrite IH by assumption. f_equal. lia.
Qed.

Lemma find_pid_from_None l g k :
  find_pid_from l g k = None <-> Forall (fun x => pid x <> g) l.
Proof.
  revert k. induction l as [|x l IH]; intros k; simpl.
  - split; auto.
  - destruct (Z.eqb_spec (pid x) g) as [Heq|Hne].
    + split; [discriminate|]. inversion 1; contradiction.
    + rewrite IH. split; [auto | inversion 1; auto].
Qed.

Lemma find_pid_from_ext l l' g k :
  map pid l = map pid l' -> find_pid_from l g k = find_pid_from l' g k.
Proof.
  revert l' k. induction l as [|x l IH]; intros [|x' l'] k; simpl;
    try discriminate; auto.
  intros [= Hx Hl]. rewrite Hx. destruct (pid x' =? g); auto.
Qed.

Lemma findNodeByPID_lookup g s i :
  findNodeByPID g s = Some i ->
  exists it, schedule_root_node s !! i = Some it /\ pid it = g.
Proof.
  unfold findNodeByPID. intros H.
  apply find_pid_from_Some in H as (l1 & it & l2 & Hl & -> & Hp & _).
  exists it. split; [|assumption].
  rewrite Hl. simpl. by rewrite list_lookup_middle.
Qed.

Lemma find_before_from_low l target k :
  (target <= k)%nat -> find_before_from l target k = None.
Proof.
  revert k. induction l as [|x l IH]; intros k Hk; [done|].
  cbn [find_before_from]. destruct l as [|y l]; [done|].
  destruct (Nat.eqb_spec (S k) target); [lia|].
  apply IH. lia.
Qed.

Lemma find_before_from_in l target k :
  (k < target < k + length l)%nat ->
  find_before_from l target k = Some (target - 1)%nat.
Proof.
  revert k. induction l as [|x l IH]; intros k Hr; [simpl in Hr; lia|].
  cbn [find_before_from]. destruct l as [|y l]; [simpl in Hr; lia|].
  destruct (Nat.eqb_spec (S k) target) as [<-|Hne].
  - f_equal. lia.
  - apply IH. simpl in *. lia.
Qed.

(** Unlinking the node at position [i] is [delete i]. *)
Lemma unlink_is_delete l i :
  (i < length l)%nat ->
  match find_before_from l i 0 with
  | Some j => take (S j) l ++ drop (S i) l
  | None => if Nat.eqb i 0 then drop 1 l else l
  end = delete i l.
Proof.
  intros Hi. destruct i as [|i].
  - rewrite find_before_from_low by lia. simpl. by destruct l.
  - rewrite find_before_from_in by lia.
    replace (S (S i - 1)) with (S i) by lia.
    by rewrite delete_take_drop.
Qed.

Lemma link_after_last_app l nu : link_after_last l nu = l ++ [nu].
Proof.
  induction l as [|x l IH]; [done|].
  simpl. destruct l as [|y l]; [done|]. by rewrite IH.
Qed.

End ListHelpers.

(** ** Lemmas on destruction and PIDs *)

Lemma destroyScheduleItem_delete s i it :
  schedule_root_node s !! i = Some it ->
  destroyScheduleItem (Some i) s =
    clearProfilingData_node (Some it)
      (set_schedule_root_node (delete i (schedule_root_node s)) s).
Proof.
  intros Hi. unfold destroyScheduleItem. rewrite Hi. simpl.
  f_equal. unfold findNodeBeforeThisOne.
  pose proof (unlink_is_delete (schedule_root_node s) i
                (lookup_lt_Some _ _ _ Hi)) as Hd.
  destruct (find_before_from (schedule_root_node s) i 0).
  - by rewrite Hd.
  - destruct (Nat.eqb i 0); rewrite <- Hd; [done|]. by destruct s.
Qed.

Lemma clearProfilingData_node_live s it :
  profile_live s it ->
  clearProfilingData_node (Some it) s =
    Some (set_prof_heap (heap_without (prof_data it) (prof_heap s)) s).
Proof.
  unfold profile_live, clearProfilingData_node, heap_without.
  destruct (prof_data it) as [a|]; [|by destruct s].
  intros [p Hp]. by rewrite Hp.
Qed.

Lemma clearProfilingData_node_true s obj s' :
  clearProfilingData_node obj s = Some s' ->
  schedule_root_node s' = schedule_root_node s.
Proof.
  unfold clearProfilingData_node.
  destruct obj as [it|]; [|by intros [= <-]].
  destruct (prof_data it) as [a|]; [|by intros [= <-]].
  destruct (prof_heap s !! a); simpl; [by intros [= <-]|done].
Qed.

Lemma get_valid_new_pid_fuel_spec s :
  get_valid_new_pid_fuel 2 s =
    Some (if next_pid s =? 0 then (1, set_next_pid 2 s)
          else (next_pid s, set_next_pid (wrap32 (next_pid s + 1)) s)).
Proof.
  unfold get_valid_new_pid_fuel.
  destruct (Z.eqb_spec (next_pid s) 0) as [H0|H0]; [|done].
  rewrite H0. reflexivity.
Qed.

(** More fuel does not change the PID that is drawn. *)
Lemma get_valid_new_pid_fuel_enough s fuel :
  get_valid_new_pid_fuel (S (S fuel)) s = Some (get_valid_new_pid s).
Proof.
  unfold get_valid_new_pid. rewrite get_valid_new_pid_fuel_spec.
  cbn [get_valid_new_pid_fuel].
  destruct (Z.eqb_spec (next_pid s) 0) as [H0|H0]; [|done].
  rewrite H0. simpl. destruct fuel; reflexivity.
Qed.

Lemma get_valid_new_pid_nonzero s : fst (get_valid_new_pid s) <> 0.
Proof.
  unfold get_valid_new_pid. rewrite get_valid_new_pid_fuel_spec.
  destruct (Z.eqb_spec (next_pid s) 0); simpl; lia.
Qed.

Lemma get_valid_new_pid_frame s :
  let s' := snd (get_valid_new_pid s) in
  schedule_root_node s' = schedule_root_node s /\
  currently_executing s' = currently_executing s /\
  productive_loops s' = productive_loops s /\
  total_loops s' = total_loops s /\
  overhead s' = overhead s /\
  prof_heap s' = prof_heap s.
Proof.
  unfold get_valid_new_pid. rewrite get_valid_new_pid_fuel_spec.
  destruct (next_pid s =? 0); simpl; auto 10.
Qed.

Lemma insertScheduleItemAtEnd_spec nu s :
  let s' := fst (insertScheduleItemAtEnd nu s) in
  schedule_root_node s' = schedule_root_node s ++ [nu] /\
  prof_heap s' = prof_heap s /\
  currently_executing s' = currently_executing s.
Proof.
  unfold insertScheduleItemAtEnd.
  destruct (schedule_root_node s) as [|x l] eqn:El; cbn -[link_after_last].
  - done.
  - by rewrite link_after_last_app.
Qed.

(** ** Creation *)

(** C3 : [createSchedule] returns the sentinel PID 0 and leaves the whole
    state as it was when the period is at most 1 or the callback is NULL
    (and also when the allocation fails); with a period above 1, a non-NULL
    callback and a successful allocation it returns a PID other than 0 and
    the new node is the last of the list, with that PID, enabled, not due
    and with [thread_time_to_wait] equal to the period. *)
Theorem createSchedule_spec (sch_period recurrence : Z) (ac : bool)
    (sch_callback : FunctionPointer) (malloc_ok : bool) (s : Scheduler) :
  (sch_period <= 1 \/ sch_callback = None \/ malloc_ok = false ->
     createSchedule sch_period recurrence ac sch_callback malloc_ok s = (0, s)) /\
  (1 < sch_period -> sch_callback <> None -> malloc_ok = true ->
     exists new_pid s' nu,
       createSchedule sch_period recurrence ac sch_callback malloc_ok s
         = (new_pid, s') /\
       new_pid <> 0 /\
       schedule_root_node s' = schedule_root_node s ++ [nu] /\
       nu = mkScheduleItem None new_pid sch_period sch_period recurrence
              true false ac sch_callback /\
       pid nu = new_pid /\
       thread_enabled nu = true /\
       thread_fire nu = false /\
       thread_time_to_wait nu = sch_period /\
       thread_period nu = sch_period /\
       prof_heap s' = prof_heap s /\
       currently_executing s' = currently_executing s).
Proof.
  split.
  - intros H. unfold createSchedule.
    destruct (Z.ltb_spec 1 sch_period) as [Hlt|Hge]; [|done].
    destruct sch_callback as [f|]; [|done].
    destruct malloc_ok; [|done].
    destruct H as [H|[H|H]]; [lia|done|done].
  - intros Hp Hcb ->. unfold createSchedule.
    destruct (Z.ltb_spec 1 sch_period) as [_|Hge]; [|lia].
    destruct sch_callback as [f|]; [|done].
    pose proof (get_valid_new_pid_nonzero s) as Hnz.
    pose proof (get_valid_new_pid_frame s) as (Hl & Hce & _ & _ & _ & Hh).
    destruct (get_valid_new_pid s) as [new_pid s1]. simpl in *.
    pose proof (insertScheduleItemAtEnd_spec
                  (mkScheduleItem None new_pid sch_period sch_period recurrence
                     true false ac (Some f)) s1) as (Ha & Hb & Hc).
    eexists _, _, _. split; [reflexivity|].
    split_and!; try done; congruence.
Qed.

Lemma createSchedule_spec_witness :
  createSchedule 1 0 true (Some 5%positive) true Scheduler_init
    = (0, Scheduler_init) /\
  exists new_pid s' nu,
    createSchedule 10 3 true (Some 5%positive) true Scheduler_init
      = (new_pid, s') /\
    new_pid <> 0 /\
    schedule_root_node s' = schedule_root_node Scheduler_init ++ [nu] /\
    thread_enabled nu = true /\ thread_fire nu = false /\
    thread_time_to_wait nu = 10.
Proof.
  split.
  - apply (createSchedule_spec 1 0 true (Some 5%positive) true Scheduler_init).
    left. lia.
  - destruct (proj2 (createSchedule_spec 10 3 true (Some 5%positive) true
                       Scheduler_init))
      as (new_pid & s' & nu & H1 & H2 & H3 & _ & _ & H4 & H5 & H6 & _);
      [lia | discriminate | reflexivity |].
    exists new_pid, s', nu. repeat split; assumption.
Defined.

(** ** Lemmas on the tick *)

Section Tick.

Implicit Types (it : ScheduleItem) (s : Scheduler).

Lemma set_thread_time_to_wait_same it :
  set_thread_time_to_wait (thread_time_to_wait it) it = it.
Proof. by destruct it. Qed.

Lemma advance_node_pid it : pid (advance_node it) = pid it.
Proof.
  unfold advance_node.
  destruct (thread_enabled it); [|done].
  by destruct (0 <? thread_time_to_wait it).
Qed.

Lemma iter_advance_node_pid n it : pid (Nat.iter n advance_node it) = pid it.
Proof. induction n as [|n IH]; simpl; [done|]. by rewrite advance_node_pid. Qed.

Lemma ticks_root k s :
  schedule_root_node (ticks k s)
    = map (Nat.iter k advance_node) (schedule_root_node s).
Proof.
  induction k as [|k IH]; simpl.
  - by rewrite map_id.
  - by rewrite IH, map_map.
Qed.

Lemma ticks_lookup k s i :
  schedule_root_node (ticks k s) !! i
    = Nat.iter k advance_node <$> schedule_root_node s !! i.
Proof. by rewrite ticks_root, list_lookup_fmap. Qed.

Lemma ticks_findNodeByPID k s g :
  findNodeByPID g (ticks k s) = findNodeByPID g s.
Proof.
  unfold findNodeByPID. apply find_pid_from_ext.
  rewrite ticks_root, map_map. apply map_ext. intros it.
  apply iter_advance_node_pid.
Qed.

Lemma ticks_currently_executing k s :
  currently_executing (ticks k s) = currently_executing s.
Proof. induction k as [|k IH]; simpl; [done|]. exact IH. Qed.



(** While the countdown lasts, a tick only decrements it. *)
Lemma iter_advance_node_countdown n it :
  thread_enabled it = true ->
  Z.of_nat n <= thread_time_to_wait it ->
  Nat.iter n advance_node it
    = set_thread_time_to_wait (thread_time_to_wait it - Z.of_nat n) it.
Proof.
  intros He. induction n as [|n IH]; intros Hn.
  - simpl. rewrite Z.sub_0_r. by rewrite set_thread_time_to_wait_same.
  - cbn [Nat.iter nat_rect]. change (nat_rect _ ?x _ n) with (Nat.iter n advance_node x).
    rewrite IH by lia.
    unfold advance_node. simpl. rewrite He.
    destruct (Z.ltb_spec 0 (thread_time_to_wait it - Z.of_nat n)); [|lia].
    unfold set_thread_time_to_wait. simpl. f_equal. lia.
Qed.

(** The tick after the countdown has reached 0 sets the due flag. *)
Lemma iter_advance_node_fire it :
  thread_enabled it = true ->
  0 <= thread_time_to_wait it ->
  Nat.iter (S (Z.to_nat (thread_time_to_wait it))) advance_node it
    = set_thread_time_to_wait (thread_period it) (set_thread_fire true it).
Proof.
  intros He Hn.
  cbn [Nat.iter nat_rect].
  change (nat_rect _ ?x _ ?n) with (Nat.iter n advance_node x).
  rewrite iter_advance_node_countdown by (try done; lia).
  rewrite Z2Nat.id by done. rewrite Z.sub_diag.
  unfold advance_node. simpl. by rewrite He.
Qed.

End Tick.

(** ** Queries *)

(** C10 : [willRunAgain] answers [false] for a live, enabled item whose
    [thread_recurs] is 0, although that item still fires once: its due flag
    is set by the tick that follows the end of its countdown.  The answer is
    [true] exactly when the PID resolves to an item that is enabled and whose
    [thread_recurs] is -1 or positive. *)
Theorem willRunAgain_spec (g_pid : Z) (s : Scheduler) :
  (forall i it,
     findNodeByPID g_pid s = Some i ->
     schedule_root_node s !! i = Some it ->
     thread_enabled it = true -> thread_recurs it = 0 ->
     willRunAgain g_pid s = false /\
     (0 <= thread_time_to_wait it ->
      exists it',
        schedule_root_node
          (ticks (S (Z.to_nat (thread_time_to_wait it))) s) !! i = Some it' /\
        thread_fire it' = true /\ thread_enabled it' = true)) /\
  (willRunAgain g_pid s = true <->
     exists i it,
       findNodeByPID g_pid s = Some i /\
       schedule_root_node s !! i = Some it /\
       thread_enabled it = true /\
       (thread_recurs it = -1 \/ 0 < thread_recurs it)).
Proof.
  split.
  - intros i it Hf Hl He Hr. split.
    + unfold willRunAgain, deref. rewrite Hf. simpl. rewrite Hl, He, Hr.
      reflexivity.
    + intros Hw.
      exists (Nat.iter (S (Z.to_nat (thread_time_to_wait it))) advance_node it).
      rewrite ticks_lookup, Hl. split; [done|].
      rewrite iter_advance_node_fire by done. done.
  - unfold willRunAgain, deref. split.
    + destruct (findNodeByPID g_pid s) as [i|] eqn:Hf; simpl; [|done].
      destruct (schedule_root_node s !! i) as [it|] eqn:Hl; [|done].
      destruct (thread_enabled it) eqn:He; [|done].
      destruct (Z.eqb_spec (thread_recurs it) (-1)) as [Hr|Hr]; simpl.
      * intros _. exists i, it. auto.
      * destruct (Z.ltb_spec 0 (thread_recurs it)); [|done].
        intros _. exists i, it. auto.
    + intros (i & it & -> & Hl & He & Hr). simpl. rewrite Hl, He.
      destruct Hr as [->|Hr]; [done|].
      destruct (Z.ltb_spec 0 (thread_recurs it)); [|lia].
      by rewrite orb_true_r.
Qed.

Lemma willRunAgain_spec_witness :
  let s := set_schedule_root_node [demo_item 1 2 2 0 true false false] Scheduler_init in
  willRunAgain 1 s = false /\
  exists it', schedule_root_node (ticks 3 s) !! 0%nat = Some it' /\
              thread_fire it' = true /\ thread_enabled it' = true.
Proof.
  intros s.
  destruct (proj1 (willRunAgain_spec 1 s) 0%nat
              (demo_item 1 2 2 0 true false false)) as [H1 H2];
    [reflexivity | reflexivity | reflexivity | reflexivity |].
  split; [exact H1|]. apply H2. simpl. lia.
Defined.

(** ** Removal *)

Lemma alter_lookup_insert (f : ScheduleItem -> ScheduleItem)
    (l : list ScheduleItem) (i : nat) (x : ScheduleItem) :
  l !! i = Some x -> alter f i l = <[i := f x]> l.
Proof.
  revert i. induction l as [|y l IH]; intros [|i]; simpl; try done.
  - by intros [= ->].
  - intros H. f_equal. by apply IH.
Qed.

Lemma removeSchedule_found g_pid s i obj :
  findNodeByPID g_pid s = Some i ->
  schedule_root_node s !! i = Some obj ->
  removeSchedule g_pid s =
    if negb (pid obj =? currently_executing s) then
      s' ← clearProfilingData_node (Some obj)
             (set_schedule_root_node (delete i (schedule_root_node s)) s);
      Some (s', true)
    else
      Some (set_schedule_root_node
              (<[i := set_thread_recurs 0 (set_autoclear true obj)]>
                 (schedule_root_node s)) s, true).
Proof.
  intros Hf Hl. unfold removeSchedule. rewrite Hf, Hl.
  cbn [mbind option_bind].
  destruct (negb (pid obj =? currently_executing s)).
  - by rewrite (destroyScheduleItem_delete s i obj Hl).
  - unfold update_node.
    by rewrite (alter_lookup_insert _ _ _ _ Hl).
Qed.

Lemma removeSchedule_total g_pid s :
  profiles_live s -> exists s', removeSchedule g_pid s = Some (s', true).
Proof.
  intros Hlive.
  destruct (findNodeByPID g_pid s) as [i|] eqn:Hf.
  - destruct (findNodeByPID_lookup _ _ _ Hf) as (obj & Hl & _).
    rewrite (removeSchedule_found _ _ _ _ Hf Hl).
    destruct (negb (pid obj =? currently_executing s)); [|eauto].
    rewrite clearProfilingData_node_live; [simpl; eauto|].
    unfold profiles_live in Hlive. rewrite Forall_lookup in Hlive.
    exact (Hlive i obj Hl).
  - unfold removeSchedule. rewrite Hf. eauto.
Qed.

(** C9 : [removeSchedule] never returns [false]: whenever the call returns
    its result is [true], it returns [true] with the state unchanged for a
    PID that resolves to no item, and it does return whenever no profiling
    pointer of the list is dangling. *)
Theorem removeSchedule_always_true (g_pid : Z) (s : Scheduler) :
  (forall s' b, removeSchedule g_pid s = Some (s', b) -> b = true) /\
  (findNodeByPID g_pid s = None -> removeSchedule g_pid s = Some (s, true)) /\
  (profiles_live s -> exists s', removeSchedule g_pid s = Some (s', true)).
Proof.
  split_and!.
  - intros s' b. unfold removeSchedule.
    destruct (findNodeByPID g_pid s) as [i|]; [|congruence].
    destruct (schedule_root_node s !! i) as [obj|];
      cbn [mbind option_bind]; [|done].
    destruct (negb (pid obj =? currently_executing s)).
    + destruct (destroyScheduleItem (Some i) s);
        cbn [mbind option_bind]; [|done].
      congruence.
    + congruence.
  - intros Hf. unfold removeSchedule. by rewrite Hf.
  - apply removeSchedule_total.
Qed.

Lemma removeSchedule_always_true_witness :
  removeSchedule 7 Scheduler_init = Some (Scheduler_init, true) /\
  exists s', removeSchedule 7 Scheduler_init = Some (s', true).
Proof.
  split.
  - apply (removeSchedule_always_true 7 Scheduler_init). reflexivity.
  - apply (removeSchedule_always_true 7 Scheduler_init).
    unfold profiles_live. simpl. constructor.
Defined.

(** C6 : [removeSchedule] on a PID that resolves to a live item: when the
    PID of the item is the currently-executing marker the item stays in the
    list, with [thread_recurs] 0 and [autoclear] set and nothing else
    changed; otherwise the item is unlinked and freed at once, together
    with its profiling record.  Both calls return [true]. *)
Theorem removeSchedule_spec (g_pid : Z) (s : Scheduler) (i : nat)
    (obj : ScheduleItem) :
  findNodeByPID g_pid s = Some i ->
  schedule_root_node s !! i = Some obj ->
  (pid obj = currently_executing s ->
     removeSchedule g_pid s =
       Some (set_schedule_root_node
               (<[i := set_thread_recurs 0 (set_autoclear true obj)]>
                  (schedule_root_node s)) s, true)) /\
  (pid obj <> currently_executing s -> profile_live s obj ->
     removeSchedule g_pid s =
       Some (set_prof_heap (heap_without (prof_data obj) (prof_heap s))
               (set_schedule_root_node (delete i (schedule_root_node s)) s),
             true)).
Proof.
  intros Hf Hl. rewrite (removeSchedule_found _ _ _ _ Hf Hl). split.
  - intros ->. by rewrite Z.eqb_refl.
  - intros Hne Hlive.
    destruct (Z.eqb_spec (pid obj) (currently_executing s)); [done|].
    cbn [negb]. by rewrite clearProfilingData_node_live.
Qed.

Lemma removeSchedule_spec_witness :
  let a := demo_item 1 5 5 (-1) true false false in
  let b := demo_item 2 3 3 4 true false false in
  let s := set_schedule_root_node [a; b] Scheduler_init in
  removeSchedule 2 (set_currently_executing 2 s) =
    Some (set_currently_executing 2
            (set_schedule_root_node
               [a; set_thread_recurs 0 (set_autoclear true b)] s), true) /\
  removeSchedule 2 s = Some (set_schedule_root_node [a] s, true).
Proof.
  intros a b s. split.
  - apply (removeSchedule_spec 2 (set_currently_executing 2 s) 1 b);
      reflexivity.
  - apply (removeSchedule_spec 2 s 1 b);
      [reflexivity | reflexivity | discriminate | exact I].
Defined.

(** ** Ticks on a due item *)

(** C2 (amended) : a call of [advanceScheduler] keeps the due flag of an
    enabled, due item set and keeps every field other than
    [thread_time_to_wait], but the countdown goes on: [thread_time_to_wait]
    is decremented when it is positive and reset to the period when it is 0.
    The list keeps its length and the flag stays set over any number of
    ticks, so the ticks that pass before the dispatch add no second firing. *)
Theorem advanceScheduler_due_item (s : Scheduler) (i : nat) (it : ScheduleItem) :
  schedule_root_node s !! i = Some it ->
  thread_enabled it = true ->
  thread_fire it = true ->
  schedule_root_node (advanceScheduler s) !! i
    = Some (set_thread_time_to_wait
              (if 0 <? thread_time_to_wait it
               then thread_time_to_wait it - 1
               else thread_period it) it) /\
  length (schedule_root_node (advanceScheduler s))
    = length (schedule_root_node s) /\
  forall n, due_after n i s = true.
Proof.
  intros Hl He Hfire. split_and!.
  - unfold advanceScheduler. simpl. rewrite list_lookup_fmap, Hl. simpl.
    f_equal. unfold advance_node. rewrite He.
    destruct (0 <? thread_time_to_wait it); [done|].
    destruct it; simpl in *. by subst.
  - unfold advanceScheduler. simpl. by rewrite length_map.
  - intros n. unfold due_after. rewrite ticks_lookup, Hl.
    cbn [fmap option_fmap option_map].
    clear Hl. induction n as [|n IH]; [done|].
    cbn [Nat.iter nat_rect].
    change (nat_rect _ ?x _ ?m) with (Nat.iter m advance_node x).
    unfold advance_node at 1.
    destruct (thread_enabled (Nat.iter n advance_node it)); [|done].
    by destruct (0 <? thread_time_to_wait (Nat.iter n advance_node it)).
Qed.

Lemma advanceScheduler_due_item_witness :
  let it := demo_item 1 5 5 (-1) true true false in
  let s := set_schedule_root_node [it] Scheduler_init in
  schedule_root_node (advanceScheduler s) !! 0%nat
    = Some (set_thread_time_to_wait 4 it) /\
  length (schedule_root_node (advanceScheduler s)) = 1%nat /\
  forall n, due_after n 0 s = true.
Proof.
  intros it s.
  apply (advanceScheduler_due_item s 0 it); reflexivity.
Defined.

(** C2 as stated fails: the tick decrements the countdown of an enabled item
    that is already due. *)
Lemma advanceScheduler_changes_due_item :
  ~ (forall (s : Scheduler) (i : nat) (it : ScheduleItem),
       schedule_root_node s !! i = Some it ->
       thread_enabled it = true ->
       thread_fire it = true ->
       schedule_root_node (advanceScheduler s) !! i = Some it).
Proof.
  intros H.
  specialize (H
    (set_schedule_root_node [demo_item 1 5 5 (-1) true true false]
       Scheduler_init)
    0%nat (demo_item 1 5 5 (-1) true true false)
    eq_refl eq_refl eq_refl).
  discriminate H.
Qed.

(** ** Lemmas on the dispatch *)

Lemma profile_live_frame s s' it :
  dom (prof_heap s') = dom (prof_heap s) ->
  profile_live s it -> profile_live s' it.
Proof.
  unfold profile_live. intros Hd. destruct (prof_data it) as [a|]; [|done].
  by rewrite <- !elem_of_dom, Hd.
Qed.

Lemma execute_node_inv a clk s s1 evs :
  execute_node a clk s = Some (s1, evs) ->
  schedule_root_node s1 = schedule_root_node s /\
  evs = invocation a /\
  dom (prof_heap s1) = dom (prof_heap s) /\
  productive_loops s1 = productive_loops s /\
  next_pid s1 = next_pid s.
Proof.
  unfold execute_node, invocation.
  destruct (schedule_callback a) as [f|]; [|intros [= ? ?]; by subst].
  destruct (scheduleBeingProfiled_node (Some a) s) as [b1|];
    cbn [mbind option_bind]; [|done].
  destruct (scheduleBeingProfiled_node (Some a) _) as [[|]|];
    cbn [mbind option_bind]; [| intros [= ? ?]; by subst | done].
  destruct (prof_data a) as [pa|]; cbn [mbind option_bind]; [|done].
  cbn [prof_heap set_currently_executing].
  destruct (prof_heap s !! pa) as [p|] eqn:Hp; cbn [mbind option_bind]; [|done].
  intros [= <- <-]. split_and!; try done. simpl.
  by apply dom_insert_lookup_L.
Qed.

Lemma execute_node_total a clk s :
  profile_live s a -> is_Some (execute_node a clk s).
Proof.
  unfold profile_live, execute_node, scheduleBeingProfiled_node.
  destruct (schedule_callback a) as [f|]; [|done].
  destruct (prof_data a) as [pa|]; cbn [mbind option_bind].
  - intros [p Hp]. cbn [prof_heap set_currently_executing].
    rewrite Hp. simpl. by destruct (profiling_active p).
  - done.
Qed.

Lemma service_scan_first_due l1 a l2 k clk s :
  Forall not_due l1 -> thread_fire a = true ->
  service_scan (l1 ++ a :: l2) k clk s
    = service_node (k + length l1) a clk s.
Proof.
  intros Hl1 Ha. revert k.
  induction Hl1 as [|x l1 Hx _ IH]; intros k; simpl.
  - rewrite Ha. by rewrite Nat.add_0_r.
  - rewrite Hx, IH. f_equal. lia.
Qed.

Lemma service_scan_none_due l k clk s :
  Forall not_due l -> service_scan l k clk s = Some (s, []).
Proof.
  intros Hl. revert k. induction Hl as [|x l Hx _ IH]; intros k; simpl; [done|].
  by rewrite Hx.
Qed.

(** Every list is without a due node, or splits at its first due node. *)
Lemma first_due_split (l : list ScheduleItem) :
  Forall not_due l \/
  exists l1 a l2, l = l1 ++ a :: l2 /\ Forall not_due l1 /\ thread_fire a = true.
Proof.
  induction l as [|x l IH]; [by left|].
  destruct (thread_fire x) eqn:Hx.
  - right. exists [], x, l. by split_and!.
  - destruct IH as [IH|(l1 & a & l2 & -> & Hl1 & Ha)].
    + left. by constructor.
    + right. exists (x :: l1), a, l2. split_and!; try done. by constructor.
Qed.

(** A list has no due node, exactly one, or splits at its first two. *)
Lemma due_nodes_split (l : list ScheduleItem) :
  Forall not_due l \/
  (exists l1 a l2,
     l = l1 ++ a :: l2 /\ Forall not_due l1 /\ thread_fire a = true /\
     Forall not_due l2) \/
  (exists l1 a l2 b l3,
     l = l1 ++ a :: l2 ++ b :: l3 /\ Forall not_due l1 /\
     thread_fire a = true /\ Forall not_due l2 /\ thread_fire b = true).
Proof.
  destruct (first_due_split l) as [Hn|(l1 & a & rest & -> & Hl1 & Ha)];
    [by left|right].
  destruct (first_due_split rest) as [Hn|(l2 & b & l3 & -> & Hl2 & Hb)].
  - left. exists l1, a, rest. by split_and!.
  - right. exists l1, a, l2, b, l3. by split_and!.
Qed.

Lemma alter_middle (f : ScheduleItem -> ScheduleItem) (l1 l2 : list ScheduleItem)
    (x : ScheduleItem) :
  alter f (length l1) (l1 ++ x :: l2) = l1 ++ f x :: l2.
Proof.
  rewrite <- (Nat.add_0_r (length l1)). by rewrite alter_app_r.
Qed.

Lemma update_node_middle f s l1 x l2 :
  schedule_root_node s = l1 ++ x :: l2 ->
  schedule_root_node (update_node (length l1) f s) = l1 ++ f x :: l2.
Proof. intros Hl. unfold update_node. simpl. by rewrite Hl, alter_middle. Qed.

Lemma clearProfilingData_node_separate a s s' x :
  clearProfilingData_node (Some a) s = Some s' ->
  separate_profiles a x -> profile_live s x -> profile_live s' x.
Proof.
  unfold clearProfilingData_node, separate_profiles, profile_live.
  destruct (prof_data a) as [pa|]; [|intros [= <-]; tauto].
  destruct (prof_heap s !! pa); cbn [mbind option_bind]; [|done].
  intros [= <-] Hsep. simpl.
  destruct (prof_data x) as [px|]; [|done].
  destruct Hsep as [|Hne]; [done|].
  rewrite lookup_delete_ne; [done|congruence].
Qed.

Lemma apply_recurrence_inv a l1 l2 s2 s3 :
  schedule_root_node s2 = l1 ++ set_thread_fire false a :: l2 ->
  apply_recurrence (length l1) a s2 = Some s3 ->
  schedule_root_node s3 = l1 ++ after_service a ++ l2 /\
  productive_loops s3 = productive_loops s2 /\
  (forall x, separate_profiles a x -> profile_live s2 x -> profile_live s3 x).
Proof.
  intros Hl. unfold apply_recurrence, after_service.
  destruct (thread_recurs a =? -1).
  { intros [= <-]. by rewrite Hl. }
  destruct (thread_recurs a =? 0).
  - destruct (autoclear a).
    + rewrite (destroyScheduleItem_delete s2 (length l1) (set_thread_fire false a))
        by (by rewrite Hl, list_lookup_middle).
      rewrite Hl, delete_middle. intros Hc. split_and!.
      * by rewrite (clearProfilingData_node_true _ _ _ Hc).
      * revert Hc. unfold clearProfilingData_node.
        destruct (prof_data _); [|by intros [= <-]].
        destruct (prof_heap _ !! _); cbn [mbind option_bind]; [|done].
        by intros [= <-].
      * intros x Hsep Hx.
        apply (clearProfilingData_node_separate _ _ _ x Hc); [done|].
        exact Hx.
    + intros [= <-]. split_and!; [|done|done].
      by rewrite (update_node_middle _ _ _ _ _ Hl).
  - intros [= <-]. split_and!; [|done|done].
    by rewrite (update_node_middle _ _ _ _ _ Hl).
Qed.

Lemma apply_recurrence_total a l1 l2 s2 :
  schedule_root_node s2 = l1 ++ set_thread_fire false a :: l2 ->
  profile_live s2 a ->
  is_Some (apply_recurrence (length l1) a s2).
Proof.
  intros Hl Hlive. unfold apply_recurrence.
  destruct (thread_recurs a =? -1); [done|].
  destruct (thread_recurs a =? 0); [|done].
  destruct (autoclear a); [|done].
  rewrite (destroyScheduleItem_delete s2 (length l1) (set_thread_fire false a))
    by (by rewrite Hl, list_lookup_middle).
  by rewrite clearProfilingData_node_live.
Qed.

Lemma service_node_inv a l1 l2 clk s s' evs :
  schedule_root_node s = l1 ++ a :: l2 ->
  service_node (length l1) a clk s = Some (s', evs) ->
  schedule_root_node s' = l1 ++ after_service a ++ l2 /\
  evs = invocation a /\
  productive_loops s' = wrap32 (productive_loops s + 1) /\
  (forall x, separate_profiles a x -> profile_live s x -> profile_live s' x).
Proof.
  intros Hl. unfold service_node.
  destruct (execute_node a clk s) as [[s1 evs1]|] eqn:He;
    cbn [mbind option_bind]; [|done].
  apply execute_node_inv in He as (Hl1 & -> & Hdom & Hpl & _).
  assert (Hl2 : schedule_root_node (update_node (length l1) (set_thread_fire false) s1)
                = l1 ++ set_thread_fire false a :: l2).
  { apply update_node_middle. by rewrite Hl1. }
  destruct (apply_recurrence _ a _) as [s3|] eqn:Ha;
    cbn [mbind option_bind]; [|done].
  apply (apply_recurrence_inv a l1 l2 _ _ Hl2) in Ha as (Hl3 & Hpl3 & Hlive3).
  intros [= <- <-]. split_and!; try done.
  - simpl. by rewrite Hpl3, <- Hpl.
  - intros x Hsep Hx. apply (profile_live_frame s3); [done|].
    apply Hlive3; [done|].
    by apply (profile_live_frame s).
Qed.

Lemma service_node_total a l1 l2 clk s :
  schedule_root_node s = l1 ++ a :: l2 ->
  profile_live s a ->
  is_Some (service_node (length l1) a clk s).
Proof.
  intros Hl Hlive. unfold service_node.
  destruct (execute_node_total a clk s Hlive) as [[s1 evs1] He].
  rewrite He. cbn [mbind option_bind].
  apply execute_node_inv in He as (Hl1 & _ & Hdom & _ & _).
  assert (Hl2 : schedule_root_node (update_node (length l1) (set_thread_fire false) s1)
                = l1 ++ set_thread_fire false a :: l2).
  { apply update_node_middle. by rewrite Hl1. }
  destruct (apply_recurrence_total a l1 l2 _ Hl2) as [s3 Ha].
  { by apply (profile_live_frame s). }
  by rewrite Ha.
Qed.


(** The dispatch of a list whose first due node is [a]. *)
Lemma serviceScheduledEvents_first_due clk s l1 a l2 :
  schedule_root_node s = l1 ++ a :: l2 ->
  Forall not_due l1 -> thread_fire a = true -> profile_live s a ->
  exists s',
    serviceScheduledEvents clk s = Some (s', invocation a) /\
    schedule_root_node s' = l1 ++ after_service a ++ l2 /\
    (forall x, separate_profiles a x -> profile_live s x -> profile_live s' x).
Proof.
  intros Hl Hl1 Ha Hlive. unfold serviceScheduledEvents.
  rewrite Hl, service_scan_first_due by done. simpl.
  destruct (service_node_total a l1 l2 clk s Hl Hlive) as [[s1 evs] Hs].
  rewrite Hs. cbn [mbind option_bind].
  apply (service_node_inv a l1 l2 clk s s1 evs Hl) in Hs as (H1 & -> & _ & H3).
  eexists. split; [reflexivity|]. split; [done|].
  intros x Hsep Hx. apply (profile_live_frame s1); [done|]. by apply H3.
Qed.

Lemma serviceScheduledEvents_inv clk s s' evs :
  serviceScheduledEvents clk s = Some (s', evs) ->
  (Forall not_due (schedule_root_node s) /\
   schedule_root_node s' = schedule_root_node s /\ evs = []) \/
  (exists l1 a l2,
     schedule_root_node s = l1 ++ a :: l2 /\
     Forall not_due l1 /\ thread_fire a = true /\
     schedule_root_node s' = l1 ++ after_service a ++ l2 /\
     evs = invocation a).
Proof.
  unfold serviceScheduledEvents.
  destruct (first_due_split (schedule_root_node s))
    as [Hn|(l1 & a & l2 & Hl & Hl1 & Ha)].
  - rewrite service_scan_none_due by done. cbn [mbind option_bind].
    intros [= <- <-]. left. by split_and!.
  - rewrite Hl, service_scan_first_due by done. simpl.
    destruct (service_node (length l1) a clk s) as [[s1 evs1]|] eqn:Hs;
      cbn [mbind option_bind]; [|done].
    intros [= <- <-].
    apply (service_node_inv a l1 l2 clk s s1 evs1 Hl) in Hs as (H1 & -> & _).
    right. exists l1, a, l2. by split_and!.
Qed.

Lemma wrap32_range (x : Z) : uint32_range (wrap32 x).
Proof. unfold uint32_range, wrap32. apply Z.mod_pos_bound. lia. Qed.

Lemma wrap16_range (x : Z) : int16_range (wrap16 x).
Proof.
  unfold int16_range, wrap16.
  pose proof (Z.mod_pos_bound (x + 2 ^ 15) (2 ^ 16)). lia.
Qed.






(** ** Profiling data *)

(** [clearProfilingData] on a node that holds a live record frees the record
    and leaves the pointer in the node. *)
Lemma clearProfilingData_keeps_pointer g_pid s i it pa p :
  findNodeByPID g_pid s = Some i ->
  schedule_root_node s !! i = Some it ->
  prof_data it = Some pa ->
  prof_heap s !! pa = Some p ->
  clearProfilingData g_pid s = Some (set_prof_heap (delete pa (prof_heap s)) s) /\
  scheduleBeingProfiled g_pid (set_prof_heap (delete pa (prof_heap s)) s) = None /\
  forall malloc_ok,
    beginProfiling g_pid malloc_ok (set_prof_heap (delete pa (prof_heap s)) s)
      = Some (set_prof_heap (delete pa (prof_heap s)) s).
Proof.
  intros Hf Hl Hpa Hp. split_and!.
  - unfold clearProfilingData, deref. rewrite Hf. simpl. rewrite Hl. simpl.
    by rewrite Hpa, Hp.
  - unfold scheduleBeingProfiled, deref, findNodeByPID in *. simpl.
    rewrite Hf. simpl. rewrite Hl. simpl. rewrite Hpa.
    by rewrite lookup_delete_eq.
  - intros ok. unfold beginProfiling, findNodeByPID in *. simpl.
    rewrite Hf. simpl. rewrite Hl. simpl. by rewrite Hpa.
Qed.

(** C7 : the code at the failing input.  [profiled_state] is reached through
    the API; after [clearProfilingData(1)] the node still holds the address
    of the freed record, so [scheduleBeingProfiled(1)] reads freed memory
    (it does not answer [false]) and [beginProfiling(1)] finds a non-NULL
    pointer and allocates nothing: the state is unchanged and holds no
    record. *)
Theorem clearProfilingData_leaves_dangling_pointer :
  beginProfiling 1 true
    (snd (createSchedule 10 (-1) false (Some 1%positive) true Scheduler_init))
    = Some profiled_state /\
  scheduleBeingProfiled 1 profiled_state = Some true /\
  clearProfilingData 1 profiled_state = Some cleared_state /\
  (prof_data <$> schedule_root_node cleared_state !! 0%nat)
    = Some (Some 1%positive) /\
  prof_heap cleared_state = ∅ /\
  scheduleBeingProfiled 1 cleared_state = None /\
  scheduleBeingProfiled 1 cleared_state <> Some false /\
  beginProfiling 1 true cleared_state = Some cleared_state /\
  ~ profiles_live cleared_state.
Proof.
  split_and!; try by vm_compute.
  unfold profiles_live. intros H. apply Forall_inv in H.
  unfold profile_live in H. cbn [prof_data profiled_item] in H.
  destruct H as [p Hp]. discriminate Hp.
Qed.

(** ** The reset invariant *)

Lemma reset_invariant_init : reset_invariant Scheduler_init.
Proof. constructor. Qed.

Lemma reset_update_node i f s :
  (forall x, reset_ok x -> reset_ok (f x)) ->
  reset_invariant s -> reset_invariant (update_node i f s).
Proof.
  intros Hf Hs. unfold reset_invariant, update_node. simpl.
  apply Forall_alter; [done|]. intros x _. apply Hf.
Qed.

Ltac reset_fields :=
  let x := fresh "x" in
  let Hx := fresh "Hx" in
  let He := fresh "He" in
  intros x Hx He; simpl in *;
  first [ discriminate He
        | split; reflexivity
        | destruct (Hx He); split; first [assumption | reflexivity] ].

Lemma advance_node_reset x : reset_ok x -> reset_ok (advance_node x).
Proof.
  unfold advance_node, reset_ok.
  destruct (thread_enabled x) eqn:He; [|by rewrite He].
  destruct (0 <? thread_time_to_wait x); simpl; rewrite He; discriminate.
Qed.

Lemma reset_ok_enabled x : thread_enabled x = true -> reset_ok x.
Proof. intros Hx Hd. congruence. Qed.

Lemma after_service_reset a :
  reset_ok a -> thread_fire a = true -> Forall reset_ok (after_service a).
Proof.
  intros Ha Hfire.
  assert (He : thread_enabled a = true).
  { destruct (thread_enabled a) eqn:He; [done|].
    destruct (Ha He) as [_ Hf]. congruence. }
  unfold after_service.
  destruct (thread_recurs a =? -1).
  { apply Forall_singleton. by apply reset_ok_enabled. }
  destruct (thread_recurs a =? 0).
  - destruct (autoclear a); [constructor|].
    apply Forall_singleton. intros _. by split.
  - apply Forall_singleton. by apply reset_ok_enabled.
Qed.

Lemma createSchedule_root p r ac cb ok s :
  schedule_root_node (snd (createSchedule p r ac cb ok s)) = schedule_root_node s \/
  exists nu,
    schedule_root_node (snd (createSchedule p r ac cb ok s))
      = schedule_root_node s ++ [nu] /\ thread_enabled nu = true.
Proof.
  unfold createSchedule.
  destruct (1 <? p); [|by left].
  destruct cb as [f|]; [|by left].
  destruct ok; [|by left].
  pose proof (get_valid_new_pid_frame s) as (Hl & _).
  destruct (get_valid_new_pid s) as [new_pid s1]. simpl in *.
  right. exists (mkScheduleItem None new_pid p p r true false ac (Some f)).
  split; [|reflexivity].
  pose proof (insertScheduleItemAtEnd_spec
                (mkScheduleItem None new_pid p p r true false ac (Some f)) s1)
    as (Ha & _).
  simpl in Ha. by rewrite Ha, Hl.
Qed.

Lemma removeSchedule_reset g_pid s s' b :
  removeSchedule g_pid s = Some (s', b) ->
  reset_invariant s -> reset_invariant s'.
Proof.
  intros Hr Hs. unfold removeSchedule in Hr.
  destruct (findNodeByPID g_pid s) as [i|]; [|by injection Hr as <- _].
  destruct (schedule_root_node s !! i) as [obj|] eqn:Hl;
    cbn [mbind option_bind] in Hr; [|done].
  destruct (negb (pid obj =? currently_executing s)).
  - rewrite (destroyScheduleItem_delete s i obj Hl) in Hr.
    destruct (clearProfilingData_node _ _) as [s1|] eqn:Hc;
      cbn [mbind option_bind] in Hr; [|done].
    injection Hr as <- _. unfold reset_invariant.
    rewrite (clearProfilingData_node_true _ _ _ Hc). simpl.
    by apply Forall_delete.
  - injection Hr as <- _. apply reset_update_node; [reset_fields|done].
Qed.

Lemma serviceScheduledEvents_total clk s :
  profiles_live s -> is_Some (serviceScheduledEvents clk s).
Proof.
  intros Hlive.
  destruct (first_due_split (schedule_root_node s))
    as [Hn|(l1 & a & l2 & Hl & Hl1 & Ha)].
  - unfold serviceScheduledEvents. by rewrite service_scan_none_due.
  - destruct (serviceScheduledEvents_first_due clk s l1 a l2 Hl Hl1 Ha)
      as (s' & Hs & _); [|by rewrite Hs].
    unfold profiles_live in Hlive. rewrite Hl in Hlive.
    apply Forall_app in Hlive as [_ Hlive]. by apply Forall_inv in Hlive.
Qed.

Lemma serviceScheduledEvents_reset clk s s' evs :
  serviceScheduledEvents clk s = Some (s', evs) ->
  reset_invariant s -> reset_invariant s'.
Proof.
  intros Hs Hinv. unfold reset_invariant in *.
  apply serviceScheduledEvents_inv in Hs
    as [(_ & -> & _)|(l1 & a & l2 & Hl & _ & Ha & -> & _)]; [done|].
  rewrite Hl in Hinv.
  apply Forall_app in Hinv as [H1 Hinv].
  apply Forall_cons in Hinv as [H2 H3].
  repeat (apply Forall_app; split); auto using after_service_reset.
Qed.

Ltac reset_by_update :=
  repeat case_match; simpl;
  first [ assumption
        | apply reset_update_node; [reset_fields | assumption] ].

Lemma exec_reset_invariant c s s' :
  reset_invariant s -> exec c s = Some s' -> reset_invariant s'.
Proof.
  intros Hinv He. destruct c; simpl in He.
  - injection He as <-.
    destruct (createSchedule_root sch_period recurrence ac sch_callback
                malloc_ok s) as [H|(nu & H & Hen)];
      unfold reset_invariant; rewrite H; [done|].
    apply Forall_app. split; [done|].
    apply Forall_singleton. by apply reset_ok_enabled.
  - injection He as <-. unfold alterSchedule, alterSchedule_node.
    reset_by_update.
  - injection He as <-. unfold alterSchedule_autoclear. reset_by_update.
  - injection He as <-. unfold alterSchedule_callback. reset_by_update.
  - injection He as <-. unfold alterSchedulePeriod. reset_by_update.
  - injection He as <-. unfold alterScheduleRecurrence. reset_by_update.
  - injection He as <-. unfold enableSchedule. reset_by_update.
  - injection He as <-. unfold disableSchedule. reset_by_update.
  - injection He as <-. unfold delaySchedule_by, delaySchedule_node.
    reset_by_update.
  - injection He as <-. unfold delaySchedule, delaySchedule_node.
    reset_by_update.
  - destruct (removeSchedule g_pid s) as [[s1 b]|] eqn:Hr; [|done].
    injection He as <-. by apply (removeSchedule_reset g_pid s s1 b).
  - injection He as <-. unfold reset_invariant, advanceScheduler. simpl.
    rewrite Forall_map. eapply Forall_impl; [exact Hinv|].
    apply advance_node_reset.
  - destruct (serviceScheduledEvents clk s) as [[s1 evs]|] eqn:Hs; [|done].
    injection He as <-. by apply (serviceScheduledEvents_reset clk s s1 evs).
  - unfold beginProfiling, beginProfiling_node in He.
    destruct (findNodeByPID g_pid s) as [i|]; [|by injection He as <-].
    destruct (schedule_root_node s !! i) as [it|];
      cbn [mbind option_bind] in He; [|done].
    destruct (prof_data it); [by injection He as <-|].
    destruct malloc_ok; [|done]. injection He as <-.
    apply (reset_update_node i (set_prof_data _)); [|done].
    intros x Hx. exact Hx.
  - unfold stopProfiling, stopProfiling_node in He.
    destruct (deref s (findNodeByPID g_pid s)) as [it|];
      [|by injection He as <-].
    destruct (prof_data it) as [a|]; [|by injection He as <-].
    destruct (prof_heap s !! a); cbn [mbind option_bind] in He; [|done].
    by injection He as <-.
  - unfold clearProfilingData in He. unfold reset_invariant.
    by rewrite (clearProfilingData_node_true _ _ _ He).
Qed.

Lemma exec_total c s :
  profiles_live s -> is_profiling_call c = false -> is_Some (exec c s).
Proof.
  intros Hlive Hc. destruct c; try done; simpl.
  - destruct (removeSchedule_total g_pid s Hlive) as [s' ->]. done.
  - destruct (serviceScheduledEvents_total clk s Hlive) as [[s' evs] ->].
    done.
Qed.

Lemma run_reset_invariant cs s s' :
  reset_invariant s -> run cs s = Some s' -> reset_invariant s'.
Proof.
  revert s. induction cs as [|c cs IH]; intros s Hinv; simpl.
  - by intros [= <-].
  - destruct (exec c s) as [s1|] eqn:He; cbn [mbind option_bind]; [|done].
    apply IH. by apply (exec_reset_invariant c s).
Qed.

(** C8 : every public operation preserves the reset invariant: in the state
    an operation returns, every item with [thread_enabled] false has
    [thread_time_to_wait] equal to [thread_period] and is not due, provided
    this held before.  Create, alter, enable, disable, delay, remove, tick
    and dispatch do return when no profiling pointer is dangling. *)
Theorem reset_invariant_preserved (c : api_call) (s : Scheduler) :
  reset_invariant s ->
  (forall s', exec c s = Some s' -> reset_invariant s') /\
  (profiles_live s -> is_profiling_call c = false -> is_Some (exec c s)).
Proof.
  intros Hinv. split.
  - intros s' He. by apply (exec_reset_invariant c s).
  - apply exec_total.
Qed.

Lemma reset_invariant_preserved_witness :
  let s := set_schedule_root_node
             [demo_item 1 3 7 0 true true false;
              demo_item 2 5 5 1 false false false] Scheduler_init in
  let c := ServiceScheduledEvents (mkClock 0 1 2 3) in
  reset_invariant s /\
  (forall s', exec c s = Some s' -> reset_invariant s') /\
  is_Some (exec c s).
Proof.
  intros s c.
  assert (Hinv : reset_invariant s).
  { apply Forall_cons. split; [intros H; discriminate H|].
    apply Forall_singleton. intros _. split; reflexivity. }
  destruct (reset_invariant_preserved c s Hinv) as [H1 H2].
  split; [exact Hinv|]. split; [exact H1|].
  apply H2; [|reflexivity].
  apply Forall_cons. split; [exact I|]. apply Forall_singleton. exact I.
Defined.

(** ** Disable and enable *)

Lemma update_node_lookup i f s :
  schedule_root_node (update_node i f s) !! i
    = f <$> schedule_root_node s !! i.
Proof. unfold update_node. simpl. apply list_lookup_alter_eq. Qed.

(** Enabling an item that waits for its whole period: the due flag stays
    clear for as many ticks as the period counts and is set by the tick
    after them. *)
Lemma enable_reset_item_fires g_pid s i it :
  findNodeByPID g_pid s = Some i ->
  schedule_root_node s !! i = Some it ->
  thread_time_to_wait it = thread_period it ->
  thread_fire it = false ->
  0 <= thread_period it ->
  (forall n, (n <= Z.to_nat (thread_period it))%nat ->
     due_after n i (fst (enableSchedule g_pid s)) = false) /\
  due_after (S (Z.to_nat (thread_period it))) i (fst (enableSchedule g_pid s))
    = true.
Proof.
  intros Hf Hl Hw Hfire HP.
  assert (Hr : schedule_root_node (fst (enableSchedule g_pid s)) !! i
               = Some (set_thread_enabled true it)).
  { unfold enableSchedule. rewrite Hf. cbn [fst].
    by rewrite update_node_lookup, Hl. }
  set (it0 := set_thread_enabled true it) in *.
  assert (He : thread_enabled it0 = true) by done.
  assert (Hw0 : thread_time_to_wait it0 = thread_period it) by done.
  split.
  - intros n Hn. unfold due_after. rewrite ticks_lookup, Hr.
    cbn [fmap option_fmap option_map].
    rewrite iter_advance_node_countdown; [done | done | lia].
  - unfold due_after. rewrite ticks_lookup, Hr.
    cbn [fmap option_fmap option_map].
    rewrite <- Hw0. rewrite iter_advance_node_fire; [done | done | lia].
Qed.

(** C1 (amended) : a live schedule is disabled with [disableSchedule] and,
    after any further calls that leave it disabled (so none of them a
    [delaySchedule] or [enableSchedule] that takes effect on it), re-enabled
    with [enableSchedule]; [P] is its period at that moment.  Its due flag
    stays clear during the first [P] calls of [advanceScheduler] after the
    re-enable and is set by call number [P + 1]: never sooner, and one tick
    later than [P]. *)
Theorem reenable_fires_after_period_plus_one (g_pid : Z) (s : Scheduler)
    (cs : list api_call) (s2 : Scheduler) (i : nat) (it : ScheduleItem) :
  reset_invariant s ->
  run cs (fst (disableSchedule g_pid s)) = Some s2 ->
  findNodeByPID g_pid s2 = Some i ->
  schedule_root_node s2 !! i = Some it ->
  thread_enabled it = false ->
  0 <= thread_period it ->
  (forall n, (n <= Z.to_nat (thread_period it))%nat ->
     due_after n i (fst (enableSchedule g_pid s2)) = false) /\
  due_after (S (Z.to_nat (thread_period it))) i (fst (enableSchedule g_pid s2))
    = true.
Proof.
  intros Hinv Hrun Hf Hl Hd HP.
  assert (Hinv2 : reset_invariant s2).
  { apply (run_reset_invariant cs (fst (disableSchedule g_pid s))); [|done].
    by apply (exec_reset_invariant (DisableSchedule g_pid) s). }
  unfold reset_invariant in Hinv2. rewrite Forall_lookup in Hinv2.
  destruct (Hinv2 i it Hl Hd) as [Hw Hfire].
  by apply enable_reset_item_fires.
Qed.

Lemma reenable_fires_after_period_plus_one_witness :
  let it := demo_item 1 0 2 (-1) true true false in
  let s := set_schedule_root_node [it] Scheduler_init in
  let cs := [AdvanceScheduler; AlterScheduleRecurrence 1 5; AdvanceScheduler] in
  let s2 := set_schedule_root_node [demo_item 1 2 2 5 false false false]
              Scheduler_init in
  run cs (fst (disableSchedule 1 s)) = Some s2 /\
  (forall n, (n <= 2)%nat -> due_after n 0 (fst (enableSchedule 1 s2)) = false) /\
  due_after 3 0 (fst (enableSchedule 1 s2)) = true.
Proof.
  intros it s cs s2.
  split; [reflexivity|].
  apply (reenable_fires_after_period_plus_one 1 s cs s2 0
           (demo_item 1 2 2 5 false false false));
    [ apply Forall_singleton; intros H; discriminate H
    | reflexivity | reflexivity | reflexivity | reflexivity | simpl; lia ].
Defined.

(** C1 as stated fails: with period 2 the due flag is still clear after 2
    calls of [advanceScheduler]. *)
Lemma reenable_not_due_after_period :
  ~ (forall (g_pid : Z) (s : Scheduler) (cs : list api_call) (s2 : Scheduler)
            (i : nat) (it : ScheduleItem),
       reset_invariant s ->
       run cs (fst (disableSchedule g_pid s)) = Some s2 ->
       findNodeByPID g_pid s2 = Some i ->
       schedule_root_node s2 !! i = Some it ->
       thread_enabled it = false ->
       0 <= thread_period it ->
       (forall n, (n < Z.to_nat (thread_period it))%nat ->
          due_after n i (fst (enableSchedule g_pid s2)) = false) /\
       due_after (Z.to_nat (thread_period it)) i (fst (enableSchedule g_pid s2))
         = true).
Proof.
  intros H.
  destruct (H 1
    (set_schedule_root_node [demo_item 1 2 2 (-1) true false false]
       Scheduler_init)
    []
    (set_schedule_root_node [demo_item 1 2 2 (-1) false false false]
       Scheduler_init)
    0%nat (demo_item 1 2 2 (-1) false false false)) as [_ H2];
    [ apply Forall_singleton; intros Hd; discriminate Hd
    | reflexivity | reflexivity | reflexivity | reflexivity | simpl; lia | ].
  discriminate H2.
Qed.

(** ** Profiling pointers in reachable states *)

Section ProfilePointers.

Implicit Types (l : list ScheduleItem) (s : Scheduler).

Lemma map_alter_preserved {B} (proj : ScheduleItem -> B)
    (f : ScheduleItem -> ScheduleItem) i l :
  (forall x, proj (f x) = proj x) -> map proj (alter f i l) = map proj l.
Proof.
  intros Hf. revert i. induction l as [|x l IH]; intros [|i]; simpl; try done.
  - by rewrite Hf.
  - f_equal. apply IH.
Qed.

Lemma profile_pointers_map l l' :
  map prof_data l' = map prof_data l -> profile_pointers l' = profile_pointers l.
Proof.
  revert l'. induction l as [|x l IH]; intros [|x' l']; simpl; try done.
  intros [= Hx Hl]. unfold profile_pointers in *. simpl.
  rewrite Hx. by rewrite (IH l').
Qed.

Lemma profile_live_mono s s' it :
  dom (prof_heap s) ⊆ dom (prof_heap s') ->
  profile_live s it -> profile_live s' it.
Proof.
  unfold profile_live. intros Hd. destruct (prof_data it) as [a|]; [|done].
  rewrite <- !elem_of_dom. apply Hd.
Qed.

Lemma profiles_live_map s s' l l' :
  map prof_data l' = map prof_data l ->
  dom (prof_heap s) ⊆ dom (prof_heap s') ->
  Forall (profile_live s) l -> Forall (profile_live s') l'.
Proof.
  intros Hm Hd. revert l' Hm.
  induction l as [|x l IH]; intros [|x' l']; simpl; try done.
  intros [= Hx Hl] Hall. apply Forall_cons in Hall as [H1 H2].
  constructor; [|by apply IH].
  apply (profile_live_mono s); [done|].
  unfold profile_live in *. by rewrite Hx.
Qed.

Lemma profiles_wf_same_pointers s s' :
  map prof_data (schedule_root_node s') = map prof_data (schedule_root_node s) ->
  dom (prof_heap s) ⊆ dom (prof_heap s') ->
  profiles_wf s -> profiles_wf s'.
Proof.
  intros Hm Hd [Hlive Hnd]. split.
  - by apply (profiles_live_map s s' (schedule_root_node s)).
  - by rewrite (profile_pointers_map _ _ Hm).
Qed.

Lemma profiles_wf_update_node i f s :
  (forall x, prof_data (f x) = prof_data x) ->
  profiles_wf s -> profiles_wf (update_node i f s).
Proof.
  intros Hf. apply profiles_wf_same_pointers; [|done].
  unfold update_node. simpl. by apply map_alter_preserved.
Qed.

(** Unlinking a node and freeing its record keeps the other nodes well
    formed. *)
Lemma profiles_wf_unlink s s' l1 a l2 :
  schedule_root_node s = l1 ++ a :: l2 ->
  schedule_root_node s' = l1 ++ l2 ->
  dom (prof_heap s') = dom (heap_without (prof_data a) (prof_heap s)) ->
  profiles_wf s -> profiles_wf s'.
Proof.
  intros Hl Hl' Hd [Hlive Hnd]. unfold profiles_wf, profiles_live in *.
  rewrite Hl in Hlive, Hnd. rewrite Hl'.
  unfold profile_pointers in *. rewrite omap_app in Hnd |- *.
  assert (Hnd' : NoDup (omap prof_data l1 ++ omap prof_data l2)).
  { simpl in Hnd. destruct (prof_data a); [|done].
    apply NoDup_app in Hnd as (H1 & H2 & H3).
    apply NoDup_cons in H3 as [_ H3].
    apply NoDup_app. split_and!; try done.
    intros x Hx Hx2. apply (H2 x Hx). by right. }
  split; [|done].
  assert (Hother : forall x, x ∈ l1 ++ l2 -> profile_live s x ->
                             profile_live s' x).
  { intros x Hin. unfold profile_live.
    destruct (prof_data x) as [px|] eqn:Hpx; [|done].
    rewrite <- !elem_of_dom, Hd. unfold heap_without.
    destruct (prof_data a) as [pa|] eqn:Hpa; [|done].
    rewrite dom_delete_L. intros Hdom.
    apply elem_of_difference. split; [done|].
    rewrite elem_of_singleton. intros ->.
    simpl in Hnd. rewrite Hpa in Hnd.
    apply NoDup_app in Hnd as (H1 & H2 & H3).
    apply NoDup_cons in H3 as [H3 _].
    apply elem_of_app in Hin as [Hin|Hin].
    - apply (H2 pa); [|by left].
      apply list_elem_of_omap. by exists x.
    - apply H3. apply list_elem_of_omap. by exists x. }
  rewrite Forall_forall. intros x Hin. apply Hother; [done|].
  rewrite Forall_forall in Hlive. apply Hlive.
  apply elem_of_app in Hin as [Hin|Hin]; apply elem_of_app; [by left|].
  right. by right.
Qed.

Lemma profiles_wf_separate s l1 a l2 b l3 :
  profiles_wf s ->
  schedule_root_node s = l1 ++ a :: l2 ++ b :: l3 ->
  profile_live s a /\ profile_live s b /\ separate_profiles a b.
Proof.
  intros [Hlive Hnd] Hl. unfold profiles_live in Hlive.
  rewrite Hl in Hlive, Hnd.
  apply Forall_app in Hlive as [_ Hlive].
  apply Forall_cons in Hlive as [Ha Hlive].
  apply Forall_app in Hlive as [_ Hlive].
  apply Forall_cons in Hlive as [Hb _].
  split_and!; try done.
  unfold separate_profiles.
  destruct (prof_data b) as [pb|] eqn:Hpb; [right|by left].
  intros Heq. unfold profile_pointers in Hnd.
  rewrite omap_app in Hnd. apply NoDup_app in Hnd as (_ & _ & Hnd).
  simpl in Hnd. rewrite <- Heq in Hnd.
  apply NoDup_cons in Hnd as [Hnd _]. apply Hnd.
  rewrite omap_app. apply elem_of_app. right. simpl. rewrite Hpb. by left.
Qed.

End ProfilePointers.

Section ReachableStates.

Implicit Types (l : list ScheduleItem) (s : Scheduler).

Lemma advance_node_prof_data it : prof_data (advance_node it) = prof_data it.
Proof.
  unfold advance_node.
  destruct (thread_enabled it); [|done].
  by destruct (0 <? thread_time_to_wait it).
Qed.

Lemma createSchedule_prof_heap p r ac cb ok s :
  prof_heap (snd (createSchedule p r ac cb ok s)) = prof_heap s.
Proof.
  unfold createSchedule.
  destruct (1 <? p); [|done].
  destruct cb as [f|]; [|done].
  destruct ok; [|done].
  pose proof (get_valid_new_pid_frame s) as (_ & _ & _ & _ & _ & Hh).
  destruct (get_valid_new_pid s) as [new_pid s1]. simpl in *.
  pose proof (insertScheduleItemAtEnd_spec
                (mkScheduleItem None new_pid p p r true false ac (Some f)) s1)
    as (_ & Hb & _).
  simpl in Hb. by rewrite Hb.
Qed.

Lemma createSchedule_pointers p r ac cb ok s :
  profile_pointers (schedule_root_node (snd (createSchedule p r ac cb ok s)))
    = profile_pointers (schedule_root_node s) /\
  (Forall (profile_live s) (schedule_root_node s) ->
   Forall (profile_live s)
     (schedule_root_node (snd (createSchedule p r ac cb ok s)))).
Proof.
  unfold createSchedule.
  destruct (1 <? p); [|done].
  destruct cb as [f|]; [|done].
  destruct ok; [|done].
  pose proof (get_valid_new_pid_frame s) as (Hl & _).
  destruct (get_valid_new_pid s) as [new_pid s1]. simpl in *.
  pose proof (insertScheduleItemAtEnd_spec
                (mkScheduleItem None new_pid p p r true false ac (Some f)) s1)
    as (Ha & _).
  simpl in Ha. rewrite Ha, Hl. unfold profile_pointers. split.
  - rewrite omap_app. simpl. by rewrite app_nil_r.
  - intros H. apply Forall_app. split; [done|]. by apply Forall_singleton.
Qed.

Lemma createSchedule_profiles_wf p r ac cb ok s :
  profiles_wf s -> profiles_wf (snd (createSchedule p r ac cb ok s)).
Proof.
  intros [Hlive Hnd].
  destruct (createSchedule_pointers p r ac cb ok s) as [Hp Hl].
  split.
  - unfold profiles_live.
    eapply Forall_impl; [exact (Hl Hlive)|].
    intros x. apply profile_live_frame.
    by rewrite createSchedule_prof_heap.
  - by rewrite Hp.
Qed.

Lemma removeSchedule_profiles_wf g_pid s s' b :
  removeSchedule g_pid s = Some (s', b) -> profiles_wf s -> profiles_wf s'.
Proof.
  intros Hr Hwf.
  destruct (findNodeByPID g_pid s) as [i|] eqn:Hf.
  - destruct (findNodeByPID_lookup _ _ _ Hf) as (obj & Hl & _).
    rewrite (removeSchedule_found _ _ _ _ Hf Hl) in Hr.
    destruct (negb (pid obj =? currently_executing s)).
    + destruct (clearProfilingData_node _ _) as [s1|] eqn:Hc;
        cbn [mbind option_bind] in Hr; [|done].
      injection Hr as <- _.
      apply (profiles_wf_unlink s s1 (take i (schedule_root_node s)) obj
               (drop (S i) (schedule_root_node s))); [| | |done].
      * by rewrite take_drop_middle.
      * rewrite (clearProfilingData_node_true _ _ _ Hc). simpl.
        apply delete_take_drop.
      * revert Hc. unfold clearProfilingData_node, heap_without.
        destruct (prof_data obj); [|by intros [= <-]].
        simpl. destruct (prof_heap s !! _); cbn [mbind option_bind]; [|done].
        by intros [= <-].
    + injection Hr as <- _. revert Hwf.
      apply profiles_wf_same_pointers; [|done]. simpl.
      rewrite <- (alter_lookup_insert
                    (fun it => set_thread_recurs 0 (set_autoclear true it))
                    _ _ _ Hl).
      by apply map_alter_preserved.
  - unfold removeSchedule in Hr. rewrite Hf in Hr. by injection Hr as <- _.
Qed.

Lemma dom_heap_without o (h h' : gmap positive ScheduleProfile) :
  dom h = dom h' -> dom (heap_without o h) = dom (heap_without o h').
Proof.
  intros Hd. destruct o as [a|]; simpl; [|done].
  by rewrite !dom_delete_L, Hd.
Qed.

Lemma reaped_after_service a :
  if reaped a then after_service a = []
  else exists a', after_service a = [a'] /\ prof_data a' = prof_data a.
Proof.
  unfold reaped, after_service.
  destruct (thread_recurs a =? -1); simpl; [by eexists|].
  destruct (thread_recurs a =? 0); simpl; [|by eexists].
  destruct (autoclear a); [done|by eexists].
Qed.

Lemma apply_recurrence_heap a l1 l2 s2 s3 :
  schedule_root_node s2 = l1 ++ set_thread_fire false a :: l2 ->
  apply_recurrence (length l1) a s2 = Some s3 ->
  prof_heap s3 =
    if reaped a then heap_without (prof_data a) (prof_heap s2)
    else prof_heap s2.
Proof.
  intros Hl. unfold apply_recurrence, reaped.
  destruct (thread_recurs a =? -1); cbn [negb andb]; [by intros [= <-]|].
  destruct (thread_recurs a =? 0); cbn [negb andb]; [|by intros [= <-]].
  destruct (autoclear a); [|by intros [= <-]].
  rewrite (destroyScheduleItem_delete s2 (length l1) (set_thread_fire false a))
    by (by rewrite Hl, list_lookup_middle).
  unfold clearProfilingData_node, heap_without. simpl.
  destruct (prof_data a) as [pa|]; [|by intros [= <-]].
  destruct (prof_heap s2 !! pa); cbn [mbind option_bind]; [|done].
  by intros [= <-].
Qed.

Lemma service_node_dom a l1 l2 clk s s' evs :
  schedule_root_node s = l1 ++ a :: l2 ->
  service_node (length l1) a clk s = Some (s', evs) ->
  dom (prof_heap s') =
    dom (if reaped a then heap_without (prof_data a) (prof_heap s)
         else prof_heap s).
Proof.
  intros Hl. unfold service_node.
  destruct (execute_node a clk s) as [[s1 evs1]|] eqn:He;
    cbn [mbind option_bind]; [|done].
  apply execute_node_inv in He as (Hl1 & _ & Hdom & _ & _).
  assert (Hl2 : schedule_root_node (update_node (length l1) (set_thread_fire false) s1)
                = l1 ++ set_thread_fire false a :: l2).
  { apply update_node_middle. by rewrite Hl1. }
  destruct (apply_recurrence _ a _) as [s3|] eqn:Ha;
    cbn [mbind option_bind]; [|done].
  apply (apply_recurrence_heap a l1 l2 _ _ Hl2) in Ha.
  intros [= <- _]. simpl. rewrite Ha. simpl.
  destruct (reaped a); [|done]. by apply dom_heap_without.
Qed.

Lemma serviceScheduledEvents_profiles_wf clk s s' evs :
  serviceScheduledEvents clk s = Some (s', evs) ->
  profiles_wf s -> profiles_wf s'.
Proof.
  unfold serviceScheduledEvents.
  destruct (first_due_split (schedule_root_node s))
    as [Hn|(l1 & a & l2 & Hl & Hl1 & Ha)].
  - rewrite service_scan_none_due by done. cbn [mbind option_bind].
    intros [= <- _]. by apply profiles_wf_same_pointers.
  - rewrite Hl, service_scan_first_due by done. simpl.
    destruct (service_node (length l1) a clk s) as [[s1 evs1]|] eqn:Hs;
      cbn [mbind option_bind]; [|done].
    intros [= <- _].
    pose proof (service_node_dom a l1 l2 clk s s1 evs1 Hl Hs) as Hd.
    apply (service_node_inv a l1 l2 clk s s1 evs1 Hl) in Hs as (Hr & _).
    pose proof (reaped_after_service a) as Hra.
    destruct (reaped a).
    + rewrite Hra in Hr. simpl in Hr.
      by apply (profiles_wf_unlink s _ l1 a l2).
    + destruct Hra as (a' & Hra & Hpa). rewrite Hra in Hr.
      apply profiles_wf_same_pointers.
      * simpl. rewrite Hr, Hl, !map_app. simpl. by rewrite Hpa.
      * simpl. by rewrite Hd.
Qed.

Lemma beginProfiling_profiles_wf g_pid malloc_ok s s' :
  beginProfiling g_pid malloc_ok s = Some s' -> profiles_wf s -> profiles_wf s'.
Proof.
  unfold beginProfiling, beginProfiling_node.
  destruct (findNodeByPID g_pid s) as [i|]; [|by intros [= <-]].
  destruct (schedule_root_node s !! i) as [it|] eqn:Hl;
    cbn [mbind option_bind]; [|done].
  destruct (prof_data it) eqn:Hp; [by intros [= <-]|].
  destruct malloc_ok; [|done].
  intros [= <-] [Hlive Hnd].
  set (p := fresh (dom (prof_heap s))).
  assert (Hfresh : p ∉ dom (prof_heap s)) by apply is_fresh.
  pose proof (take_drop_middle _ _ _ Hl) as Hsplit.
  assert (Hi : length (take i (schedule_root_node s)) = i).
  { apply length_take_le. apply lookup_lt_Some in Hl. lia. }
  assert (Hroot : alter (set_prof_data (Some p)) i (schedule_root_node s)
                  = take i (schedule_root_node s)
                    ++ set_prof_data (Some p) it
                    :: drop (S i) (schedule_root_node s)).
  { rewrite <- Hsplit at 1. rewrite <- Hi at 1. apply alter_middle. }
  unfold profiles_live in Hlive. rewrite <- Hsplit in Hlive, Hnd.
  apply Forall_app in Hlive as [Hl1 Hlive].
  apply Forall_cons in Hlive as [_ Hl2].
  unfold profile_pointers in Hnd. rewrite omap_app in Hnd. simpl in Hnd.
  rewrite Hp in Hnd.
  assert (Hold : forall x, profile_live s x ->
            profile_live
              (set_prof_heap (<[p:=fresh_profile]> (prof_heap s))
                 (update_node i (set_prof_data (Some p)) s)) x).
  { intros x. apply profile_live_mono. simpl. rewrite dom_insert_L.
    apply union_subseteq_r. }
  assert (Hnot : forall l, Forall (profile_live s) l -> p ∉ omap prof_data l).
  { intros l Hall Hin. apply list_elem_of_omap in Hin as (x & Hx & Hpx).
    rewrite Forall_forall in Hall. specialize (Hall x Hx).
    unfold profile_live in Hall. rewrite Hpx in Hall.
    apply Hfresh. by apply elem_of_dom. }
  split.
  - unfold profiles_live. simpl. rewrite Hroot.
    apply Forall_app. split; [by eapply Forall_impl; [exact Hl1|]|].
    apply Forall_cons. split; [|by eapply Forall_impl; [exact Hl2|]].
    unfold profile_live. simpl. by rewrite lookup_insert_eq.
  - simpl. rewrite Hroot. unfold profile_pointers. rewrite omap_app. simpl.
    apply NoDup_app in Hnd as (H1 & H2 & H3).
    apply NoDup_app. split_and!; [done| |].
    + intros x Hx Hx2. apply elem_of_cons in Hx2 as [->|Hx2].
      * by apply (Hnot _ Hl1).
      * by apply (H2 x).
    + apply NoDup_cons. split; [by apply Hnot|done].
Qed.

Lemma stopProfiling_profiles_wf g_pid s s' :
  stopProfiling g_pid s = Some s' -> profiles_wf s -> profiles_wf s'.
Proof.
  unfold stopProfiling, stopProfiling_node.
  destruct (deref s (findNodeByPID g_pid s)) as [it|]; [|by intros [= <-]].
  destruct (prof_data it) as [a|]; [|by intros [= <-]].
  destruct (prof_heap s !! a) eqn:Ha; cbn [mbind option_bind]; [|done].
  intros [= <-]. apply profiles_wf_same_pointers; [done|]. simpl.
  rewrite dom_insert_L. apply union_subseteq_r.
Qed.

Ltac wf_by_update :=
  repeat case_match; simpl;
  first [ assumption
        | apply profiles_wf_update_node; [intros ?; reflexivity | assumption] ].

Lemma exec_profiles_wf c s s' :
  clears_profile c = false ->
  profiles_wf s -> exec c s = Some s' -> profiles_wf s'.
Proof.
  intros Hc Hwf He. destruct c; simpl in He; try discriminate Hc.
  - injection He as <-. by apply createSchedule_profiles_wf.
  - injection He as <-. unfold alterSchedule, alterSchedule_node. wf_by_update.
  - injection He as <-. unfold alterSchedule_autoclear. wf_by_update.
  - injection He as <-. unfold alterSchedule_callback. wf_by_update.
  - injection He as <-. unfold alterSchedulePeriod. wf_by_update.
  - injection He as <-. unfold alterScheduleRecurrence. wf_by_update.
  - injection He as <-. unfold enableSchedule. wf_by_update.
  - injection He as <-. unfold disableSchedule. wf_by_update.
  - injection He as <-. unfold delaySchedule_by, delaySchedule_node.
    wf_by_update.
  - injection He as <-. unfold delaySchedule, delaySchedule_node. wf_by_update.
  - destruct (removeSchedule g_pid s) as [[s1 b]|] eqn:Hr; [|done].
    injection He as <-. by apply (removeSchedule_profiles_wf g_pid s s1 b).
  - injection He as <-. revert Hwf. apply profiles_wf_same_pointers; [|done].
    simpl. rewrite map_map. apply map_ext. apply advance_node_prof_data.
  - destruct (serviceScheduledEvents clk s) as [[s1 evs]|] eqn:Hs; [|done].
    injection He as <-.
    by apply (serviceScheduledEvents_profiles_wf clk s s1 evs).
  - by apply (beginProfiling_profiles_wf g_pid malloc_ok s).
  - by apply (stopProfiling_profiles_wf g_pid s).
Qed.

(** In every state reached without [clearProfilingData] the profiling
    pointers are well formed and the reset invariant holds, so the
    operations other than the profiling calls are defined there. *)
Lemma reachable_invariants s :
  reachable s -> profiles_wf s /\ reset_invariant s.
Proof.
  induction 1 as [|c s s' _ [IHwf IHinv] Hc He].
  - split; [split|]; constructor.
  - split.
    + by apply (exec_profiles_wf c s).
    + by apply (exec_reset_invariant c s).
Qed.

Lemma reachable_exec_defined c s :
  reachable s -> is_profiling_call c = false -> is_Some (exec c s).
Proof.
  intros Hr. apply exec_total. by apply reachable_invariants.
Qed.

End ReachableStates.

(** * Further properties of the code *)

(** ** The exact result of a dispatch *)

Lemma execute_node_exact a clk s :
  profile_live s a ->
  execute_node a clk s =
    Some (set_prof_heap (sampled_heap clk a (prof_heap s))
            (set_currently_executing
               (match schedule_callback a with
                | Some _ => 0
                | None => currently_executing s
                end) s),
          invocation a).
Proof.
  unfold profile_live, execute_node, invocation, sampled_heap,
    scheduleBeingProfiled_node.
  destruct (schedule_callback a) as [f|]; [|by destruct s].
  destruct (prof_data a) as [pa|]; cbn [mbind option_bind]; [|by destruct s].
  intros [r Hr]. cbn [prof_heap set_currently_executing].
  rewrite Hr. simpl. by destruct (profiling_active r).
Qed.

Lemma sampled_heap_dom clk a (h : gmap positive ScheduleProfile) :
  dom (sampled_heap clk a h) = dom h.
Proof.
  unfold sampled_heap.
  destruct (schedule_callback a) as [f|]; [|done].
  destruct (prof_data a) as [pa|]; [|done].
  destruct (h !! pa) as [r|] eqn:Hr; [|done].
  destruct (profiling_active r); [|done].
  by apply dom_insert_lookup_L.
Qed.

Lemma apply_recurrence_exact a l1 l2 s2 :
  schedule_root_node s2 = l1 ++ set_thread_fire false a :: l2 ->
  profile_live s2 a ->
  apply_recurrence (length l1) a s2 =
    Some (set_prof_heap
            (if reaped a then heap_without (prof_data a) (prof_heap s2)
             else prof_heap s2)
            (set_schedule_root_node (l1 ++ after_service a ++ l2) s2)).
Proof.
  intros Hl Hlive. unfold apply_recurrence, reaped, after_service.
  destruct (thread_recurs a =? -1); cbn [negb andb].
  { f_equal. destruct s2; simpl in *. by subst. }
  destruct (thread_recurs a =? 0); cbn [negb andb].
  - destruct (autoclear a).
    + rewrite (destroyScheduleItem_delete s2 (length l1) (set_thread_fire false a))
        by (by rewrite Hl, list_lookup_middle).
      rewrite Hl, delete_middle.
      by rewrite clearProfilingData_node_live.
    + f_equal. unfold update_node. rewrite Hl, alter_middle.
      by destruct s2.
  - f_equal. unfold update_node. rewrite Hl, alter_middle.
    by destruct s2.
Qed.

(** One dispatch of a list whose first due node is [a]. *)
Lemma serviceScheduledEvents_exact clk s l1 a l2 :
  schedule_root_node s = l1 ++ a :: l2 ->
  Forall not_due l1 -> thread_fire a = true -> profile_live s a ->
  serviceScheduledEvents clk s
    = Some (serviced_state clk s l1 a l2, invocation a).
Proof.
  intros Hl Hl1 Ha Hlive. unfold serviceScheduledEvents.
  rewrite Hl, service_scan_first_due by done. cbn [Nat.add].
  unfold service_node. rewrite execute_node_exact by done.
  cbn [mbind option_bind].
  set (s1 := set_prof_heap _ _).
  assert (Hl2 : schedule_root_node
                  (update_node (length l1) (set_thread_fire false) s1)
                = l1 ++ set_thread_fire false a :: l2).
  { apply update_node_middle. by rewrite <- Hl. }
  rewrite (apply_recurrence_exact a l1 l2 _ Hl2).
  - reflexivity.
  - apply (profile_live_frame s); [|done]. simpl. apply sampled_heap_dom.
Qed.

Lemma serviceScheduledEvents_none_due clk s :
  Forall not_due (schedule_root_node s) ->
  serviceScheduledEvents clk s
    = Some (set_total_loops (wrap32 (total_loops s + 1))
              (set_overhead (wrap32 (finish_time clk - origin_time clk)) s),
            []).
Proof.
  intros Hn. unfold serviceScheduledEvents.
  by rewrite service_scan_none_due.
Qed.

Lemma existsb_fire_not_due (l : list ScheduleItem) :
  Forall not_due l -> existsb thread_fire l = false.
Proof.
  induction 1 as [|x l Hx _ IH]; [done|]. simpl. by rewrite Hx, IH.
Qed.

Lemma existsb_fire_due (l1 : list ScheduleItem) a l2 :
  thread_fire a = true -> existsb thread_fire (l1 ++ a :: l2) = true.
Proof.
  intros Ha. rewrite existsb_app. simpl. rewrite Ha.
  by rewrite orb_true_r.
Qed.

(** X1 : a dispatch that finds no due item is a no-op on the schedules: it
    invokes nothing and changes nothing but [total_loops], which it
    increments, and [overhead], which it sets from the two clock readings. *)
Theorem serviceScheduledEvents_nothing_due (clk : Clock) (s : Scheduler) :
  Forall not_due (schedule_root_node s) ->
  exists s',
    serviceScheduledEvents clk s = Some (s', []) /\
    schedule_root_node s' = schedule_root_node s /\
    prof_heap s' = prof_heap s /\
    next_pid s' = next_pid s /\
    currently_executing s' = currently_executing s /\
    productive_loops s' = productive_loops s /\
    total_loops s' = wrap32 (total_loops s + 1) /\
    overhead s' = wrap32 (finish_time clk - origin_time clk).
Proof.
  intros Hn. eexists. split; [by apply serviceScheduledEvents_none_due|].
  by split_and!.
Qed.

Lemma serviceScheduledEvents_nothing_due_witness :
  let s := set_schedule_root_node
             [demo_item 1 3 7 0 true false false;
              demo_item 2 5 5 1 false false false] Scheduler_init in
  exists s',
    serviceScheduledEvents (mkClock 10 0 0 14) s = Some (s', []) /\
    schedule_root_node s' = schedule_root_node s /\
    total_loops s' = 1 /\ overhead s' = 4.
Proof.
  intros s.
  destruct (serviceScheduledEvents_nothing_due (mkClock 10 0 0 14) s)
    as (s' & H1 & H2 & _ & _ & _ & _ & H3 & H4);
    [repeat constructor|].
  exists s'. repeat split; assumption.
Defined.

(** X2 : one call of [serviceScheduledEvents] services at most one item:
    it logs at most one invocation, always adds one to [total_loops], and
    adds one to [productive_loops] exactly when some item of the list is due
    (both modulo 2^32). *)
Theorem serviceScheduledEvents_counters (clk : Clock) (s : Scheduler) :
  profiles_live s ->
  exists s' evs,
    serviceScheduledEvents clk s = Some (s', evs) /\
    (length evs <= 1)%nat /\
    total_loops s' = wrap32 (total_loops s + 1) /\
    productive_loops s' =
      (if existsb thread_fire (schedule_root_node s)
       then wrap32 (productive_loops s + 1)
       else productive_loops s).
Proof.
  intros Hlive.
  destruct (first_due_split (schedule_root_node s))
    as [Hn|(l1 & a & l2 & Hl & Hl1 & Ha)].
  - eexists _, _. split; [by apply serviceScheduledEvents_none_due|].
    rewrite existsb_fire_not_due by done. simpl. split_and!; [lia|done|done].
  - eexists _, _. split.
    + apply (serviceScheduledEvents_exact clk s l1 a l2); try done.
      unfold profiles_live in Hlive. rewrite Hl in Hlive.
      apply Forall_app in Hlive as [_ Hlive]. by apply Forall_inv in Hlive.
    + rewrite Hl, existsb_fire_due by done. split_and!; [|done|done].
      unfold invocation. destruct (schedule_callback a); simpl; lia.
Qed.

Lemma serviceScheduledEvents_counters_witness :
  let s := set_schedule_root_node
             [demo_item 1 3 7 0 true true false;
              demo_item 2 5 5 1 true true false] Scheduler_init in
  exists s' evs,
    serviceScheduledEvents (mkClock 10 0 0 14) s = Some (s', evs) /\
    (length evs <= 1)%nat /\ total_loops s' = 1 /\ productive_loops s' = 1.
Proof.
  intros s.
  destruct (serviceScheduledEvents_counters (mkClock 10 0 0 14) s)
    as (s' & evs & H1 & H2 & H3 & H4);
    [repeat constructor|].
  exists s', evs. repeat split; assumption.
Defined.



(** ** Profiling statistics *)

(** X4 : the duration a sample records is the absolute difference of the
    two clock readings.  It is the elapsed time when the counter did not
    roll over between them; after a rollover it is 2^32 minus the elapsed
    time, so the subtraction is not rollover-safe. *)
Theorem profile_sample_rollover (clk : Clock) (r : ScheduleProfile) :
  uint32_range (profile_start_time clk) ->
  uint32_range (profile_last_time clk) ->
  (profile_start_time clk <= profile_last_time clk ->
     last_time_micros (profile_sample clk r)
       = wrap32 (profile_last_time clk - profile_start_time clk)) /\
  (profile_last_time clk < profile_start_time clk ->
     last_time_micros (profile_sample clk r)
       = 2 ^ 32 - wrap32 (profile_last_time clk - profile_start_time clk)).
Proof.
  unfold uint32_range, wrap32, profile_sample. intros Hs Hl. simpl. split.
  - intros Hle. rewrite Z.mod_small by lia. lia.
  - intros Hlt.
    replace (profile_last_time clk - profile_start_time clk)
      with (-1 * 2 ^ 32
            + (2 ^ 32 + profile_last_time clk - profile_start_time clk)) by lia.
    rewrite Z.add_comm, Z.mod_add by lia.
    rewrite Z.mod_small by lia. lia.
Qed.

Lemma profile_sample_rollover_witness :
  last_time_micros (profile_sample (mkClock 0 4294967290 10 0) fresh_profile)
    = 2 ^ 32 - wrap32 (10 - 4294967290).
Proof.
  apply (profile_sample_rollover (mkClock 0 4294967290 10 0) fresh_profile);
    unfold uint32_range; simpl; lia.
Defined.

Lemma execute_node_heap a clk s s1 evs :
  execute_node a clk s = Some (s1, evs) ->
  prof_heap s1 = sampled_heap clk a (prof_heap s).
Proof.
  unfold execute_node, sampled_heap, scheduleBeingProfiled_node.
  destruct (schedule_callback a) as [f|]; [|by intros [= <- _]].
  destruct (prof_data a) as [pa|]; cbn [mbind option_bind];
    [|by intros [= <- _]].
  cbn [prof_heap set_currently_executing].
  destruct (prof_heap s !! pa) as [r|]; [|done]. simpl.
  destruct (profiling_active r); by intros [= <- _].
Qed.

(** The store a dispatch leaves. *)
Lemma serviceScheduledEvents_heap clk s s' evs :
  serviceScheduledEvents clk s = Some (s', evs) ->
  prof_heap s' = prof_heap s \/
  exists a,
    prof_heap s' =
      if reaped a
      then heap_without (prof_data a) (sampled_heap clk a (prof_heap s))
      else sampled_heap clk a (prof_heap s).
Proof.
  unfold serviceScheduledEvents.
  destruct (first_due_split (schedule_root_node s))
    as [Hn|(l1 & a & l2 & Hl & Hl1 & Ha)].
  - rewrite service_scan_none_due by done. cbn [mbind option_bind].
    intros [= <- _]. by left.
  - rewrite Hl, service_scan_first_due by done. cbn [Nat.add].
    unfold service_node.
    destruct (execute_node a clk s) as [[s1 evs1]|] eqn:He;
      cbn [mbind option_bind]; [|done].
    pose proof (execute_node_heap _ _ _ _ _ He) as Hh.
    apply execute_node_inv in He as (Hl1' & _).
    assert (Hl2 : schedule_root_node
                    (update_node (length l1) (set_thread_fire false) s1)
                  = l1 ++ set_thread_fire false a :: l2).
    { apply update_node_middle. by rewrite Hl1'. }
    destruct (apply_recurrence _ a _) as [s3|] eqn:Hr;
      cbn [mbind option_bind]; [|done].
    apply (apply_recurrence_heap a l1 l2 _ _ Hl2) in Hr.
    intros [= <- _]. right. exists a. simpl. rewrite Hr. simpl.
    by rewrite Hh.
Qed.

Lemma profile_sample_ok clk r : profile_ok (profile_sample clk r).
Proof. right. unfold profile_sample. simpl. lia. Qed.

Lemma sampled_heap_ok clk a (h : gmap positive ScheduleProfile) :
  map_Forall (fun _ r => profile_ok r) h ->
  map_Forall (fun _ r => profile_ok r) (sampled_heap clk a h).
Proof.
  intros Hh. unfold sampled_heap.
  destruct (schedule_callback a) as [f|]; [|done].
  destruct (prof_data a) as [pa|]; [|done].
  destruct (h !! pa) as [r|]; [|done].
  destruct (profiling_active r); [|done].
  apply map_Forall_insert_2; [apply profile_sample_ok|done].
Qed.

Lemma heap_without_ok o (h : gmap positive ScheduleProfile) :
  map_Forall (fun _ r => profile_ok r) h ->
  map_Forall (fun _ r => profile_ok r) (heap_without o h).
Proof.
  intros Hh. destruct o as [a|]; [|done]. by apply map_Forall_delete.
Qed.

Lemma removeSchedule_heap g_pid s s' b :
  removeSchedule g_pid s = Some (s', b) ->
  prof_heap s' = prof_heap s \/
  exists o, prof_heap s' = heap_without o (prof_heap s).
Proof.
  unfold removeSchedule.
  destruct (findNodeByPID g_pid s) as [i|]; [|intros [= <- _]; by left].
  destruct (schedule_root_node s !! i) as [obj|] eqn:Hl;
    cbn [mbind option_bind]; [|done].
  destruct (negb (pid obj =? currently_executing s)).
  - rewrite (destroyScheduleItem_delete s i obj Hl).
    unfold clearProfilingData_node.
    destruct (prof_data obj) as [pa|]; cbn [mbind option_bind].
    + destruct (prof_heap _ !! pa); cbn [mbind option_bind]; [|done].
      intros [= <- _]. right. by exists (Some pa).
    + intros [= <- _]. by left.
  - intros [= <- _]. by left.
Qed.

Ltac heap_unchanged :=
  repeat case_match; simpl; assumption.

Lemma exec_profile_ok c s s' :
  map_Forall (fun _ r => profile_ok r) (prof_heap s) ->
  exec c s = Some s' ->
  map_Forall (fun _ r => profile_ok r) (prof_heap s').
Proof.
  intros Hok He. destruct c; simpl in He.
  - injection He as <-. by rewrite createSchedule_prof_heap.
  - injection He as <-. unfold alterSchedule, alterSchedule_node.
    heap_unchanged.
  - injection He as <-. unfold alterSchedule_autoclear. heap_unchanged.
  - injection He as <-. unfold alterSchedule_callback. heap_unchanged.
  - injection He as <-. unfold alterSchedulePeriod. heap_unchanged.
  - injection He as <-. unfold alterScheduleRecurrence. heap_unchanged.
  - injection He as <-. unfold enableSchedule. heap_unchanged.
  - injection He as <-. unfold disableSchedule. heap_unchanged.
  - injection He as <-. unfold delaySchedule_by, delaySchedule_node.
    heap_unchanged.
  - injection He as <-. unfold delaySchedule, delaySchedule_node.
    heap_unchanged.
  - destruct (removeSchedule g_pid s) as [[s1 b]|] eqn:Hr; [|done].
    injection He as <-.
    apply removeSchedule_heap in Hr as [->|[o ->]]; [done|].
    by apply heap_without_ok.
  - by injection He as <-.
  - destruct (serviceScheduledEvents clk s) as [[s1 evs]|] eqn:Hs; [|done].
    injection He as <-.
    apply serviceScheduledEvents_heap in Hs as [->|[a ->]]; [done|].
    destruct (reaped a); [apply heap_without_ok|]; by apply sampled_heap_ok.
  - unfold beginProfiling, beginProfiling_node in He.
    destruct (findNodeByPID g_pid s) as [i|]; [|by injection He as <-].
    destruct (schedule_root_node s !! i) as [it|];
      cbn [mbind option_bind] in He; [|done].
    destruct (prof_data it); [by injection He as <-|].
    destruct malloc_ok; [|done]. injection He as <-. simpl.
    apply map_Forall_insert_2; [|done]. by left.
  - unfold stopProfiling, stopProfiling_node in He.
    destruct (deref s (findNodeByPID g_pid s)) as [it|];
      [|by injection He as <-].
    destruct (prof_data it) as [a|]; [|by injection He as <-].
    destruct (prof_heap s !! a) as [r|] eqn:Hr;
      cbn [mbind option_bind] in He; [|done].
    injection He as <-. simpl.
    apply map_Forall_insert_2; [|done]. exact (Hok a r Hr).
  - unfold clearProfilingData, clearProfilingData_node in He.
    destruct (deref s (findNodeByPID g_pid s)) as [it|];
      [|by injection He as <-].
    destruct (prof_data it) as [a|]; [|by injection He as <-].
    destruct (prof_heap s !! a); cbn [mbind option_bind] in He; [|done].
    injection He as <-. simpl. by apply map_Forall_delete.
Qed.

(** X5 : every profiling record is either as [beginProfiling] left it (no
    execution sampled: last 0, worst 0, best 2^32 - 1, count 0) or has
    best <= last <= worst.  This holds in the initial state and every call
    of the API keeps it. *)
Theorem profile_statistics_bracket (c : api_call) (s s' : Scheduler) :
  map_Forall (fun _ r => profile_ok r) (prof_heap Scheduler_init) /\
  (map_Forall (fun _ r => profile_ok r) (prof_heap s) ->
   exec c s = Some s' ->
   map_Forall (fun _ r => profile_ok r) (prof_heap s')).
Proof.
  split; [apply map_Forall_empty|]. apply exec_profile_ok.
Qed.

Lemma profile_statistics_bracket_witness :
  let a := mkScheduleItem (Some 1%positive) 1 10 10 (-1) true true false
             (Some 1%positive) in
  let s := mkScheduler 2 [a] 0 0 0 0 {[ 1%positive := fresh_profile ]} in
  let s' := mkScheduler 2 [set_thread_fire false a] 0 1 1 30
              {[ 1%positive := mkScheduleProfile 15 15 15 1 true ]} in
  exec (ServiceScheduledEvents (mkClock 10 20 35 40)) s = Some s' /\
  map_Forall (fun _ r => profile_ok r) (prof_heap s').
Proof.
  intros a s s'.
  assert (He : exec (ServiceScheduledEvents (mkClock 10 20 35 40)) s = Some s')
    by (by vm_compute).
  split; [exact He|].
  apply (profile_statistics_bracket
           (ServiceScheduledEvents (mkClock 10 20 35 40)) s s');
    [|exact He].
  apply map_Forall_singleton. left. by vm_compute.
Defined.

(** ** PIDs *)

Lemma createSchedule_exact p r ac cb ok s :
  createSchedule p r ac cb ok s =
    if (1 <? p) && bool_decide (cb <> None) && ok then
      let new_pid := if next_pid s =? 0 then 1 else next_pid s in
      (new_pid,
       mkScheduler (if next_pid s =? 0 then 2 else wrap32 (next_pid s + 1))
         (schedule_root_node s
          ++ [mkScheduleItem None new_pid p p r true false ac cb])
         (currently_executing s) (productive_loops s) (total_loops s)
         (overhead s) (prof_heap s))
    else (0, s).
Proof.
  unfold createSchedule.
  destruct (1 <? p); [|done].
  destruct cb as [f|]; [|done].
  destruct ok; [|done]. simpl.
  unfold get_valid_new_pid. rewrite get_valid_new_pid_fuel_spec.
  unfold insertScheduleItemAtEnd.
  destruct (next_pid s =? 0); simpl;
    (destruct (schedule_root_node s) as [|x l] eqn:Hl;
       [done | by rewrite link_after_last_app]).
Qed.

Lemma find_pid_from_app_split l l' g k :
  find_pid_from (l ++ l') g k =
    match find_pid_from l g k with
    | Some i => Some i
    | None => find_pid_from l' g (k + length l)
    end.
Proof.
  revert k. induction l as [|x l IH]; intros k; simpl.
  - by rewrite Nat.add_0_r.
  - destruct (pid x =? g); [done|]. rewrite IH. 
    replace (S k + length l)%nat with (k + S (length l))%nat by lia. done.
Qed.

Lemma find_pid_from_bound l g k i :
  find_pid_from l g k = Some i -> (k <= i < k + length l)%nat.
Proof.
  intros H. apply find_pid_from_Some in H as (l1 & it & l2 & -> & -> & _).
  rewrite length_app. simpl. lia.
Qed.

(** X6 : [peekNextPID] predicts the PID of the next successful
    [createSchedule], except when the counter holds 0 (after it has wrapped
    around): then 1 is issued.  The counter moves on by one modulo 2^32, to 2
    in the exceptional case, and a failed [createSchedule] consumes no PID. *)
Theorem createSchedule_issues_peeked_pid (sch_period recurrence : Z)
    (ac : bool) (f : positive) (malloc_ok : bool) (s : Scheduler) :
  (1 < sch_period -> malloc_ok = true ->
     fst (createSchedule sch_period recurrence ac (Some f) malloc_ok s)
       = (if peekNextPID s =? 0 then 1 else peekNextPID s) /\
     peekNextPID
       (snd (createSchedule sch_period recurrence ac (Some f) malloc_ok s))
       = (if peekNextPID s =? 0 then 2 else wrap32 (peekNextPID s + 1))) /\
  (sch_period <= 1 \/ malloc_ok = false ->
     peekNextPID
       (snd (createSchedule sch_period recurrence ac (Some f) malloc_ok s))
       = peekNextPID s).
Proof.
  rewrite createSchedule_exact. unfold peekNextPID. split.
  - intros Hp ->. destruct (Z.ltb_spec 1 sch_period); [|lia]. simpl.
    by split.
  - intros [Hp| ->].
    + destruct (Z.ltb_spec 1 sch_period); [lia|]. done.
    + by rewrite andb_false_r.
Qed.

Lemma createSchedule_issues_peeked_pid_witness :
  fst (createSchedule 10 3 true (Some 5%positive) true
         (set_next_pid 0 Scheduler_init)) = 1 /\
  peekNextPID (snd (createSchedule 10 3 true (Some 5%positive) true
                      (set_next_pid 0 Scheduler_init))) = 2 /\
  peekNextPID (snd (createSchedule 1 3 true (Some 5%positive) true
                      Scheduler_init)) = 1.
Proof.
  pose proof (createSchedule_issues_peeked_pid 10 3 true 5%positive true
                (set_next_pid 0 Scheduler_init)) as [H _].
  pose proof (createSchedule_issues_peeked_pid 1 3 true 5%positive true
                Scheduler_init) as [_ H'].
  destruct H as [H1 H2]; [lia | reflexivity |].
  split; [exact H1|]. split; [exact H2|]. apply H'. left. lia.
Defined.

Lemma same_scalars_refl s : same_scalars s s.
Proof. by split_and!. Qed.

Lemma clearProfilingData_node_scalars obj s s' :
  clearProfilingData_node obj s = Some s' -> same_scalars s s'.
Proof.
  unfold clearProfilingData_node.
  destruct obj as [it|]; [|intros [= <-]; apply same_scalars_refl].
  destruct (prof_data it) as [a|]; [|intros [= <-]; apply same_scalars_refl].
  destruct (prof_heap s !! a); cbn [mbind option_bind]; [|done].
  intros [= <-]. by split_and!.
Qed.

Lemma destroyScheduleItem_scalars r_node s s' :
  destroyScheduleItem r_node s = Some s' -> same_scalars s s'.
Proof.
  unfold destroyScheduleItem.
  destruct r_node as [i|]; [|intros [= <-]; apply same_scalars_refl].
  destruct (schedule_root_node s !! i) as [it|];
    cbn [mbind option_bind]; [|done].
  intros H. apply clearProfilingData_node_scalars in H.
  destruct (findNodeBeforeThisOne i s); [exact H|].
  by destruct (Nat.eqb i 0).
Qed.

Lemma removeSchedule_scalars g_pid s s' b :
  removeSchedule g_pid s = Some (s', b) -> same_scalars s s'.
Proof.
  unfold removeSchedule.
  destruct (findNodeByPID g_pid s) as [i|];
    [|intros [= <- _]; apply same_scalars_refl].
  destruct (schedule_root_node s !! i) as [obj|];
    cbn [mbind option_bind]; [|done].
  destruct (negb (pid obj =? currently_executing s)).
  - destruct (destroyScheduleItem (Some i) s) as [s1|] eqn:Hd;
      cbn [mbind option_bind]; [|done].
    intros [= <- _]. by apply (destroyScheduleItem_scalars (Some i)).
  - intros [= <- _]. by split_and!.
Qed.

Lemma beginProfiling_scalars g_pid ok s s' :
  beginProfiling g_pid ok s = Some s' -> same_scalars s s'.
Proof.
  unfold beginProfiling, beginProfiling_node.
  destruct (findNodeByPID g_pid s) as [i|];
    [|intros [= <-]; apply same_scalars_refl].
  destruct (schedule_root_node s !! i) as [it|];
    cbn [mbind option_bind]; [|done].
  destruct (prof_data it); [intros [= <-]; apply same_scalars_refl|].
  destruct ok; [|done]. intros [= <-]. by split_and!.
Qed.

Lemma stopProfiling_scalars g_pid s s' :
  stopProfiling g_pid s = Some s' -> same_scalars s s'.
Proof.
  unfold stopProfiling, stopProfiling_node.
  destruct (deref s (findNodeByPID g_pid s)) as [it|];
    [|intros [= <-]; apply same_scalars_refl].
  destruct (prof_data it) as [a|]; [|intros [= <-]; apply same_scalars_refl].
  destruct (prof_heap s !! a); cbn [mbind option_bind]; [|done].
  intros [= <-]. by split_and!.
Qed.

Ltac scalars_by_update :=
  repeat case_match; simpl; by split_and!.

(** Only [createSchedule] and the dispatch touch the PID counter, the
    execution marker or the dispatch counters. *)
Lemma exec_scalars c s s' :
  creates_schedule c = false -> services_events c = false ->
  exec c s = Some s' -> same_scalars s s'.
Proof.
  intros Hc Hd He. destruct c; simpl in He; try discriminate.
  - injection He as <-. unfold alterSchedule, alterSchedule_node.
    scalars_by_update.
  - injection He as <-. unfold alterSchedule_autoclear. scalars_by_update.
  - injection He as <-. unfold alterSchedule_callback. scalars_by_update.
  - injection He as <-. unfold alterSchedulePeriod. scalars_by_update.
  - injection He as <-. unfold alterScheduleRecurrence. scalars_by_update.
  - injection He as <-. unfold enableSchedule. scalars_by_update.
  - injection He as <-. unfold disableSchedule. scalars_by_update.
  - injection He as <-. unfold delaySchedule_by, delaySchedule_node.
    scalars_by_update.
  - injection He as <-. unfold delaySchedule, delaySchedule_node.
    scalars_by_update.
  - destruct (removeSchedule g_pid s) as [[s1 b]|] eqn:Hr; [|done].
    injection He as <-. by apply (removeSchedule_scalars g_pid s s1 b).
  - injection He as <-. by split_and!.
  - by apply (beginProfiling_scalars g_pid malloc_ok).
  - by apply (stopProfiling_scalars g_pid).
  - by apply (clearProfilingData_node_scalars _ _ _ He).
Qed.

Lemma apply_recurrence_scalars i a s s' :
  apply_recurrence i a s = Some s' -> same_scalars s s'.
Proof.
  unfold apply_recurrence.
  destruct (thread_recurs a =? -1); [intros [= <-]; apply same_scalars_refl|].
  destruct (thread_recurs a =? 0).
  - destruct (autoclear a); [apply destroyScheduleItem_scalars|].
    intros [= <-]. by split_and!.
  - intros [= <-]. by split_and!.
Qed.

(** The dispatch keeps the PID counter and leaves the marker at 0 or as it
    was. *)
Lemma serviceScheduledEvents_marker clk s s' evs :
  serviceScheduledEvents clk s = Some (s', evs) ->
  next_pid s' = next_pid s /\
  (currently_executing s' = 0 \/
   currently_executing s' = currently_executing s).
Proof.
  unfold serviceScheduledEvents.
  destruct (first_due_split (schedule_root_node s))
    as [Hn|(l1 & a & l2 & Hl & Hl1 & Ha)].
  - rewrite service_scan_none_due by done. cbn [mbind option_bind].
    intros [= <- _]. split; [done|by right].
  - rewrite Hl, service_scan_first_due by done. cbn [Nat.add].
    unfold service_node.
    destruct (execute_node a clk s) as [[s1 evs1]|] eqn:He;
      cbn [mbind option_bind]; [|done].
    assert (Hce : currently_executing s1 = 0 \/
                  currently_executing s1 = currently_executing s).
    { revert He. unfold execute_node.
      destruct (schedule_callback a); [|intros [= <- _]; by right].
      destruct (scheduleBeingProfiled_node _ s);
        cbn [mbind option_bind]; [|done].
      destruct (scheduleBeingProfiled_node _ _) as [[|]|];
        cbn [mbind option_bind]; [| intros [= <- _]; by left | done].
      destruct (prof_data a); cbn [mbind option_bind]; [|done].
      destruct (prof_heap _ !! _); cbn [mbind option_bind]; [|done].
      intros [= <- _]. by left. }
    apply execute_node_inv in He as (_ & _ & _ & _ & Hnp).
    destruct (apply_recurrence _ a _) as [s3|] eqn:Hr;
      cbn [mbind option_bind]; [|done].
    apply apply_recurrence_scalars in Hr as (Hn3 & Hc3 & _).
    intros [= <- _]. simpl in *. split; [congruence|].
    rewrite Hc3. exact Hce.
Qed.

Lemma after_service_pids a :
  map pid (after_service a) = [] \/ map pid (after_service a) = [pid a].
Proof.
  unfold after_service.
  destruct (thread_recurs a =? -1); [by right|].
  destruct (thread_recurs a =? 0); [|by right].
  destruct (autoclear a); [by left|by right].
Qed.

Lemma pids_sublist_middle (l1 : list ScheduleItem) a l2 (mid : list Z) :
  mid = [] \/ mid = [pid a] ->
  (map pid l1 ++ mid ++ map pid l2) `sublist_of` map pid (l1 ++ a :: l2).
Proof.
  intros Hmid. rewrite map_app. simpl.
  apply sublist_app; [done|].
  destruct Hmid as [-> | ->]; simpl.
  - by apply sublist_cons.
  - by apply sublist_skip.
Qed.

Lemma removeSchedule_pids g_pid s s' b :
  removeSchedule g_pid s = Some (s', b) ->
  map pid (schedule_root_node s') `sublist_of` map pid (schedule_root_node s).
Proof.
  intros Hr.
  destruct (findNodeByPID g_pid s) as [i|] eqn:Hf.
  - destruct (findNodeByPID_lookup _ _ _ Hf) as (obj & Hl & _).
    rewrite (removeSchedule_found _ _ _ _ Hf Hl) in Hr.
    destruct (negb (pid obj =? currently_executing s)).
    + destruct (clearProfilingData_node _ _) as [s1|] eqn:Hc;
        cbn [mbind option_bind] in Hr; [|done].
      injection Hr as <- _.
      rewrite (clearProfilingData_node_true _ _ _ Hc). simpl.
      rewrite delete_take_drop.
      rewrite <- (take_drop_middle _ _ _ Hl) at 3.
      rewrite map_app.
      apply (pids_sublist_middle _ obj _ []). by left.
    + injection Hr as <- _. simpl.
      rewrite <- (alter_lookup_insert
                    (fun it => set_thread_recurs 0 (set_autoclear true it))
                    _ _ _ Hl).
      by rewrite map_alter_preserved.
  - unfold removeSchedule in Hr. rewrite Hf in Hr. by injection Hr as <- _.
Qed.

Lemma serviceScheduledEvents_pids clk s s' evs :
  serviceScheduledEvents clk s = Some (s', evs) ->
  map pid (schedule_root_node s') `sublist_of` map pid (schedule_root_node s).
Proof.
  intros Hs.
  apply serviceScheduledEvents_inv in Hs
    as [(_ & -> & _)|(l1 & a & l2 & Hl & _ & _ & -> & _)]; [done|].
  rewrite Hl, (map_app _ l1), (map_app _ (after_service a)).
  apply pids_sublist_middle. apply after_service_pids.
Qed.

Ltac pids_by_update :=
  repeat case_match; simpl;
  first [ reflexivity
        | rewrite map_alter_preserved by (intros ?; reflexivity); reflexivity ].

(** No call other than [createSchedule] adds a PID to the list or changes
    the PID of a node. *)
Lemma exec_pids c s s' :
  creates_schedule c = false -> exec c s = Some s' ->
  map pid (schedule_root_node s') `sublist_of` map pid (schedule_root_node s).
Proof.
  intros Hc He. destruct c; simpl in He; try discriminate.
  - injection He as <-. unfold alterSchedule, alterSchedule_node.
    pids_by_update.
  - injection He as <-. unfold alterSchedule_autoclear. pids_by_update.
  - injection He as <-. unfold alterSchedule_callback. pids_by_update.
  - injection He as <-. unfold alterSchedulePeriod. pids_by_update.
  - injection He as <-. unfold alterScheduleRecurrence. pids_by_update.
  - injection He as <-. unfold enableSchedule. pids_by_update.
  - injection He as <-. unfold disableSchedule. pids_by_update.
  - injection He as <-. unfold delaySchedule_by, delaySchedule_node.
    pids_by_update.
  - injection He as <-. unfold delaySchedule, delaySchedule_node.
    pids_by_update.
  - destruct (removeSchedule g_pid s) as [[s1 b]|] eqn:Hr; [|done].
    injection He as <-. by apply (removeSchedule_pids g_pid s s1 b).
  - injection He as <-. simpl. rewrite map_map.
    erewrite map_ext; [reflexivity|]. intros it. apply advance_node_pid.
  - destruct (serviceScheduledEvents clk s) as [[s1 evs]|] eqn:Hs; [|done].
    injection He as <-. by apply (serviceScheduledEvents_pids clk s s1 evs).
  - unfold beginProfiling, beginProfiling_node in He.
    destruct (findNodeByPID g_pid s) as [i|]; [|by injection He as <-].
    destruct (schedule_root_node s !! i) as [it|];
      cbn [mbind option_bind] in He; [|done].
    destruct (prof_data it); [by injection He as <-|].
    destruct malloc_ok; [|done]. injection He as <-. simpl.
    by rewrite map_alter_preserved.
  - unfold stopProfiling, stopProfiling_node in He.
    destruct (deref s (findNodeByPID g_pid s)) as [it|];
      [|by injection He as <-].
    destruct (prof_data it) as [a|]; [|by injection He as <-].
    destruct (prof_heap s !! a); cbn [mbind option_bind] in He; [|done].
    by injection He as <-.
  - unfold clearProfilingData in He.
    by rewrite (clearProfilingData_node_true _ _ _ He).
Qed.

Lemma exec_next_pid c s s' :
  creates_schedule c = false -> exec c s = Some s' -> next_pid s' = next_pid s.
Proof.
  intros Hc He.
  destruct (services_events c) eqn:Hd.
  - destruct c; try discriminate. simpl in He.
    destruct (serviceScheduledEvents clk s) as [[s1 evs]|] eqn:Hs; [|done].
    injection He as <-. by apply serviceScheduledEvents_marker in Hs as [? _].
  - by apply (exec_scalars c s s' Hc Hd) in He as (? & _).
Qed.

Lemma pids_fresh_init : pids_fresh Scheduler_init.
Proof. split; [done|]. split; constructor. Qed.

Lemma pids_fresh_sublist s s' :
  next_pid s' = next_pid s ->
  map pid (schedule_root_node s') `sublist_of` map pid (schedule_root_node s) ->
  pids_fresh s -> pids_fresh s'.
Proof.
  intros Hn Hsub (Hpos & Hall & Hnd). split_and!.
  - by rewrite Hn.
  - rewrite Hn. rewrite Forall_forall in Hall |- *. intros x Hx.
    assert (Hin : pid x ∈ map pid (schedule_root_node s)).
    { eapply elem_of_sublist; [|exact Hsub]. by apply list_elem_of_fmap_2. }
    apply list_elem_of_fmap in Hin as (y & -> & Hy). by apply Hall.
  - by apply (sublist_NoDup _ _ Hnd).
Qed.

Lemma exec_pids_fresh c s s' :
  pids_fresh s -> next_pid s < 2 ^ 32 - 1 -> exec c s = Some s' ->
  pids_fresh s'.
Proof.
  intros Hf Hn He. destruct (creates_schedule c) eqn:Hc.
  - destruct c; try discriminate. simpl in He. injection He as <-.
    rewrite createSchedule_exact.
    destruct (_ && _ && _); [|done].
    destruct Hf as (Hpos & Hall & Hnd).
    destruct (Z.eqb_spec (next_pid s) 0) as [H0|_]; [lia|].
    assert (Hw : wrap32 (next_pid s + 1) = next_pid s + 1).
    { unfold wrap32. apply Z.mod_small. lia. }
    cbn [snd]. unfold pids_fresh. cbn [next_pid schedule_root_node].
    rewrite Hw. split_and!; [lia| |].
    + apply Forall_app. split.
      * eapply Forall_impl; [exact Hall|]. intros x Hx. simpl in Hx. lia.
      * apply Forall_singleton. simpl. lia.
    + rewrite map_app. simpl. apply NoDup_app. split_and!; [done| |].
      * intros x Hx Hx'. apply list_elem_of_singleton in Hx'. subst x.
        apply list_elem_of_fmap in Hx as (y & Hy & Hin).
        rewrite Forall_forall in Hall. specialize (Hall y Hin). simpl in Hall.
        lia.
      * apply NoDup_singleton.
  - apply (pids_fresh_sublist s); [| |done].
    + by apply (exec_next_pid c).
    + by apply (exec_pids c).
Qed.

(** X7 : PIDs are unique.  In the initial state, and after every call of
    the API made while the PID counter has not reached 2^32 - 1, the PIDs of
    the list are distinct, non-zero and smaller than the counter. *)
Theorem pids_fresh_preserved (c : api_call) (s s' : Scheduler) :
  pids_fresh Scheduler_init /\
  (pids_fresh s -> next_pid s < 2 ^ 32 - 1 -> exec c s = Some s' ->
   pids_fresh s').
Proof. split; [apply pids_fresh_init|apply exec_pids_fresh]. Qed.

Lemma pids_fresh_preserved_witness :
  let s := snd (createSchedule 10 3 true (Some 5%positive) true Scheduler_init) in
  let c := CreateSchedule 4 (-1) false (Some 6%positive) true in
  exists s', exec c s = Some s' /\ pids_fresh s' /\
             map pid (schedule_root_node s') = [1; 2].
Proof.
  intros s c. exists (snd (createSchedule 4 (-1) false (Some 6%positive) true s)).
  split; [reflexivity|]. split; [|reflexivity].
  apply (pids_fresh_preserved c s); [|by vm_compute|reflexivity].
  split; [by vm_compute|]. split.
  - apply Forall_singleton. by vm_compute.
  - apply NoDup_singleton.
Defined.

Lemma pids_fresh_unused s :
  pids_fresh s -> find_pid_from (schedule_root_node s) (next_pid s) 0 = None.
Proof.
  intros (_ & Hall & _). apply find_pid_from_None.
  eapply Forall_impl; [exact Hall|]. intros x Hx. simpl in Hx. lia.
Qed.

(** X8 : create, then look up.  When the PIDs in use are below the counter,
    the PID a successful [createSchedule] returns resolves to the node it
    appended: [findNodeByPID] finds the last node, [scheduleEnabled] answers
    [true] and [willRunAgain] answers whether the recurrence is -1 or
    positive. *)
Theorem createSchedule_then_lookup (sch_period recurrence : Z) (ac : bool)
    (f : positive) (s : Scheduler) :
  pids_fresh s -> 1 < sch_period ->
  let r := createSchedule sch_period recurrence ac (Some f) true s in
  fst r = next_pid s /\
  findNodeByPID (fst r) (snd r) = Some (length (schedule_root_node s)) /\
  schedule_root_node (snd r) !! length (schedule_root_node s)
    = Some (mkScheduleItem None (fst r) sch_period sch_period recurrence
              true false ac (Some f)) /\
  scheduleEnabled (fst r) (snd r) = true /\
  willRunAgain (fst r) (snd r) = ((recurrence =? -1) || (0 <? recurrence)).
Proof.
  intros Hf Hp. cbn zeta. rewrite createSchedule_exact.
  destruct (Z.ltb_spec 1 sch_period); [|lia]. cbn [andb bool_decide].
  rewrite bool_decide_eq_true_2 by done. cbn [andb fst snd].
  pose proof (pids_fresh_unused s Hf) as Hnone.
  destruct Hf as (Hpos & _).
  destruct (Z.eqb_spec (next_pid s) 0) as [H0|_]; [lia|].
  assert (Hfind : findNodeByPID (next_pid s)
            (mkScheduler (wrap32 (next_pid s + 1))
               (schedule_root_node s
                ++ [mkScheduleItem None (next_pid s) sch_period sch_period
                      recurrence true false ac (Some f)])
               (currently_executing s) (productive_loops s) (total_loops s)
               (overhead s) (prof_heap s))
            = Some (length (schedule_root_node s))).
  { unfold findNodeByPID. cbn [schedule_root_node].
    rewrite find_pid_from_app_split, Hnone. simpl.
    by rewrite Z.eqb_refl. }
  split_and!; try done.
  - cbn [schedule_root_node]. by rewrite list_lookup_middle.
  - unfold scheduleEnabled, deref. rewrite Hfind. simpl.
    by rewrite list_lookup_middle.
  - unfold willRunAgain, deref. rewrite Hfind. simpl.
    rewrite list_lookup_middle by done. simpl.
    by destruct ((recurrence =? -1) || (0 <? recurrence)).
Qed.

Lemma createSchedule_then_lookup_witness :
  let s := snd (createSchedule 10 3 true (Some 5%positive) true Scheduler_init) in
  let r := createSchedule 4 0 false (Some 6%positive) true s in
  fst r = 2 /\ findNodeByPID (fst r) (snd r) = Some 1%nat /\
  scheduleEnabled (fst r) (snd r) = true /\
  willRunAgain (fst r) (snd r) = false.
Proof.
  intros s r.
  destruct (createSchedule_then_lookup 4 0 false 6%positive s)
    as (H1 & H2 & _ & H3 & H4); [|lia|].
  { split; [by vm_compute|]. split.
    - apply Forall_singleton. by vm_compute.
    - apply NoDup_singleton. }
  repeat split; assumption.
Defined.

(** X9 : no guard against PID reuse.  When the counter holds a PID that a
    listed node still has (possible after the counter has wrapped around),
    [createSchedule] issues that PID again; look-ups by it then resolve to
    the old node, at its old position, and never to the node just created. *)
Theorem createSchedule_pid_collision (sch_period recurrence : Z) (ac : bool)
    (f : positive) (s : Scheduler) (i : nat) :
  1 < sch_period -> next_pid s <> 0 ->
  findNodeByPID (next_pid s) s = Some i ->
  let r := createSchedule sch_period recurrence ac (Some f) true s in
  fst r = next_pid s /\
  length (schedule_root_node (snd r)) = S (length (schedule_root_node s)) /\
  findNodeByPID (fst r) (snd r) = Some i /\
  (i < length (schedule_root_node s))%nat /\
  schedule_root_node (snd r) !! i = schedule_root_node s !! i.
Proof.
  intros Hp Hn Hfind. cbn zeta. rewrite createSchedule_exact.
  destruct (Z.ltb_spec 1 sch_period); [|lia]. cbn [andb bool_decide].
  rewrite bool_decide_eq_true_2 by done. cbn [andb fst snd].
  destruct (Z.eqb_spec (next_pid s) 0) as [H0|_]; [done|].
  pose proof (find_pid_from_bound _ _ _ _ Hfind) as Hb.
  cbn [schedule_root_node]. split_and!; try done.
  - rewrite length_app. simpl. lia.
  - unfold findNodeByPID in *. cbn [schedule_root_node].
    by rewrite find_pid_from_app_split, Hfind.
  - lia.
  - apply lookup_app_l. lia.
Qed.

Lemma createSchedule_pid_collision_witness :
  let s := set_next_pid 7
             (set_schedule_root_node
                [demo_item 7 3 9 (-1) false false false] Scheduler_init) in
  let r := createSchedule 4 0 false (Some 6%positive) true s in
  fst r = 7 /\ findNodeByPID (fst r) (snd r) = Some 0%nat /\
  scheduleEnabled (fst r) (snd r) = false.
Proof.
  intros s r.
  destruct (createSchedule_pid_collision 4 0 false 6%positive s 0)
    as (H1 & _ & H2 & _); [lia | simpl; lia | reflexivity |].
  split; [exact H1|]. split; [exact H2|]. reflexivity.
Defined.

(** ** The execution marker *)

Lemma idle_init : idle Scheduler_init.
Proof. split; [done|constructor]. Qed.

Lemma pids_nonzero_sublist (l l' : list ScheduleItem) :
  map pid l' `sublist_of` map pid l ->
  Forall (fun it => pid it <> 0) l -> Forall (fun it => pid it <> 0) l'.
Proof.
  intros Hsub Hall. rewrite Forall_forall in Hall |- *. intros x Hx.
  assert (Hin : pid x ∈ map pid l).
  { eapply elem_of_sublist; [|exact Hsub]. by apply list_elem_of_fmap_2. }
  apply list_elem_of_fmap in Hin as (y & -> & Hy). by apply Hall.
Qed.

Lemma exec_idle c s s' : idle s -> exec c s = Some s' -> idle s'.
Proof.
  intros [Hce Hnz] He. destruct (creates_schedule c) eqn:Hc.
  - destruct c; try discriminate. simpl in He. injection He as <-.
    rewrite createSchedule_exact.
    destruct (_ && _ && _); [|done]. split; [done|].
    cbn [snd schedule_root_node]. apply Forall_app. split; [done|].
    apply Forall_singleton. simpl.
    destruct (Z.eqb_spec (next_pid s) 0); lia.
  - split.
    + destruct (services_events c) eqn:Hd.
      * destruct c; try discriminate. simpl in He.
        destruct (serviceScheduledEvents clk s) as [[s1 evs]|] eqn:Hs; [|done].
        injection He as <-.
        apply serviceScheduledEvents_marker in Hs as [_ [H|H]]; congruence.
      * apply (exec_scalars c s s' Hc Hd) in He as (_ & H & _). congruence.
    + apply (pids_nonzero_sublist (schedule_root_node s)); [|done].
      by apply (exec_pids c).
Qed.

(** X10 : between two calls of the API the execution marker is 0 and no
    node has the reserved PID 0: this holds in the initial state and every
    call keeps it (service functions being opaque, the marker is set only
    inside [serviceScheduledEvents], which resets it). *)
Theorem idle_preserved (c : api_call) (s s' : Scheduler) :
  idle Scheduler_init /\
  (idle s -> exec c s = Some s' -> idle s').
Proof. split; [apply idle_init|apply exec_idle]. Qed.

Lemma idle_preserved_witness :
  let s := set_schedule_root_node [demo_item 1 3 7 0 true true true]
             Scheduler_init in
  let c := ServiceScheduledEvents (mkClock 0 1 2 3) in
  exists s', exec c s = Some s' /\ idle s' /\ schedule_root_node s' = [].
Proof.
  intros s c.
  assert (He : exec c s
               = Some (mkScheduler 1 [] 0 1 1 3 ∅)) by (by vm_compute).
  eexists. split; [exact He|]. split; [|reflexivity].
  apply (idle_preserved c s); [|exact He].
  split; [reflexivity|]. apply Forall_singleton. discriminate.
Defined.

(** X11 : remove, then look up.  Outside a service function (marker 0, no
    PID 0) and with distinct PIDs, [removeSchedule] of a PID that resolves
    destroys the node at once; afterwards the PID resolves to nothing:
    [scheduleEnabled] and [willRunAgain] answer [false] and the list is one
    node shorter. *)
Theorem removeSchedule_then_lookup (g_pid : Z) (s : Scheduler) (i : nat)
    (obj : ScheduleItem) :
  idle s -> NoDup (map pid (schedule_root_node s)) ->
  findNodeByPID g_pid s = Some i ->
  schedule_root_node s !! i = Some obj ->
  profile_live s obj ->
  exists s',
    removeSchedule g_pid s = Some (s', true) /\
    schedule_root_node s' = delete i (schedule_root_node s) /\
    S (length (schedule_root_node s')) = length (schedule_root_node s) /\
    findNodeByPID g_pid s' = None /\
    scheduleEnabled g_pid s' = false /\
    willRunAgain g_pid s' = false.
Proof.
  intros [Hce Hnz] Hnd Hf Hl Hlive.
  rewrite (removeSchedule_found _ _ _ _ Hf Hl).
  assert (Hne : pid obj <> currently_executing s).
  { rewrite Hce. rewrite Forall_lookup in Hnz. by apply (Hnz i). }
  destruct (Z.eqb_spec (pid obj) (currently_executing s)); [done|].
  cbn [negb]. rewrite clearProfilingData_node_live by done.
  cbn [mbind option_bind].
  set (s' := set_prof_heap (heap_without (prof_data obj) (prof_heap s))
               (set_schedule_root_node (delete i (schedule_root_node s)) s)).
  exists s'. split; [reflexivity|].
  assert (Hnone : findNodeByPID g_pid s' = None).
  { unfold findNodeByPID in *. subst s'.
    cbn [schedule_root_node set_prof_heap set_schedule_root_node].
    apply find_pid_from_Some in Hf as (l1 & it & l2 & Hs & Hi & Hp & Hl1).
    simpl in Hi. subst i. rewrite Hs, delete_middle.
    apply find_pid_from_None. apply Forall_app. split; [done|].
    rewrite Hs, map_app in Hnd. simpl in Hnd.
    apply NoDup_app in Hnd as (_ & _ & Hnd).
    apply NoDup_cons in Hnd as [Hnin _].
    rewrite Forall_forall. intros x Hx Hpx. apply Hnin.
    rewrite Hp, <- Hpx. by apply list_elem_of_fmap_2. }
  split_and!; try done.
  - subst s'. cbn [schedule_root_node set_prof_heap set_schedule_root_node].
    rewrite length_delete by (by eexists).
    apply lookup_lt_Some in Hl. lia.
  - unfold scheduleEnabled, deref. by rewrite Hnone.
  - unfold willRunAgain, deref. by rewrite Hnone.
Qed.

Lemma removeSchedule_then_lookup_witness :
  let a := demo_item 1 5 5 (-1) true false false in
  let b := demo_item 2 3 3 4 true false false in
  let s := set_schedule_root_node [a; b] Scheduler_init in
  exists s',
    removeSchedule 2 s = Some (s', true) /\
    schedule_root_node s' = [a] /\ findNodeByPID 2 s' = None.
Proof.
  intros a b s.
  destruct (removeSchedule_then_lookup 2 s 1 b)
    as (s' & H1 & H2 & _ & H3 & _);
    [ split; [reflexivity|repeat constructor; discriminate]
    | | reflexivity | reflexivity | exact I | ].
  { apply NoDup_cons. split; [|apply NoDup_singleton].
    intros H. apply list_elem_of_singleton in H. discriminate H. }
  exists s'. repeat split; assumption.
Defined.

(** ** Unknown PIDs, alteration, enabling and delaying *)

(** X12 : a PID that resolves to no node.  Every operation that alters,
    enables, disables or delays a schedule returns [false] and leaves the
    state as it was; the queries answer [false]; the profiling calls do
    nothing.  ([removeSchedule] alone reports [true].) *)
Theorem unknown_pid_is_rejected (g_pid : Z) (s : Scheduler) (p r t : Z)
    (ac ok : bool) (cb : FunctionPointer) :
  findNodeByPID g_pid s = None ->
  alterSchedule g_pid p r ac cb s = (s, false) /\
  alterSchedule_autoclear g_pid ac s = (s, false) /\
  alterSchedule_callback g_pid cb s = (s, false) /\
  alterSchedulePeriod g_pid p s = (s, false) /\
  alterScheduleRecurrence g_pid r s = (s, false) /\
  enableSchedule g_pid s = (s, false) /\
  disableSchedule g_pid s = (s, false) /\
  delaySchedule_by g_pid t s = (s, false) /\
  delaySchedule g_pid s = (s, false) /\
  removeSchedule g_pid s = Some (s, true) /\
  willRunAgain g_pid s = false /\
  scheduleEnabled g_pid s = false /\
  scheduleBeingProfiled g_pid s = Some false /\
  beginProfiling g_pid ok s = Some s /\
  stopProfiling g_pid s = Some s /\
  clearProfilingData g_pid s = Some s.
Proof.
  intros Hf.
  unfold alterSchedule, alterSchedule_node, alterSchedule_autoclear,
    alterSchedule_callback, alterSchedulePeriod, alterScheduleRecurrence,
    enableSchedule, disableSchedule, delaySchedule_by, delaySchedule,
    removeSchedule, willRunAgain, scheduleEnabled, scheduleBeingProfiled,
    beginProfiling, stopProfiling, clearProfilingData, deref.
  rewrite Hf. simpl. split_and!; try done.
  - destruct (1 <? p); [|done]. by destruct cb.
  - by destruct cb.
  - by destruct (1 <? p).
Qed.

Lemma unknown_pid_is_rejected_witness :
  let s := set_schedule_root_node [demo_item 1 3 7 0 true true true]
             Scheduler_init in
  enableSchedule 9 s = (s, false) /\ disableSchedule 9 s = (s, false) /\
  removeSchedule 9 s = Some (s, true) /\ scheduleEnabled 9 s = false.
Proof.
  intros s.
  destruct (unknown_pid_is_rejected 9 s 5 0 0 false true None)
    as (_ & _ & _ & _ & _ & H1 & H2 & _ & _ & H3 & _ & H4 & _);
    [reflexivity|].
  repeat split; assumption.
Defined.

(** X13 : [alterSchedule].  With a period of at most 1 or a NULL callback it
    returns [false] and changes nothing.  On a PID that resolves, with valid
    arguments, it returns [true] and rewrites the node in place: period,
    recurrence, auto-clear flag and callback are the new ones, the countdown
    restarts at the new period and the due flag is cleared, while the PID,
    the profiling pointer and the enabled flag are kept (a disabled schedule
    stays disabled) and no other node changes. *)
Theorem alterSchedule_spec (g_pid : Z) (sch_period recurrence : Z) (ac : bool)
    (sch_callback : FunctionPointer) (s : Scheduler) :
  (sch_period <= 1 \/ sch_callback = None ->
     alterSchedule g_pid sch_period recurrence ac sch_callback s = (s, false)) /\
  (forall i it,
     1 < sch_period -> sch_callback <> None ->
     findNodeByPID g_pid s = Some i ->
     schedule_root_node s !! i = Some it ->
     alterSchedule g_pid sch_period recurrence ac sch_callback s =
       (set_schedule_root_node
          (<[i := mkScheduleItem (prof_data it) (pid it) sch_period sch_period
                    recurrence (thread_enabled it) false ac sch_callback]>
             (schedule_root_node s)) s,
        true)).
Proof.
  unfold alterSchedule, alterSchedule_node. split.
  - intros [Hp|Hc].
    + destruct (Z.ltb_spec 1 sch_period); [lia|done].
    + rewrite Hc. by destruct (1 <? sch_period).
  - intros i it Hp Hc Hf Hl. rewrite Hf.
    destruct (Z.ltb_spec 1 sch_period); [|lia].
    destruct sch_callback as [f|]; [|done].
    unfold update_node. by rewrite (alter_lookup_insert _ _ _ _ Hl).
Qed.

Lemma alterSchedule_spec_witness :
  let it := demo_item 1 3 7 0 false false true in
  let s := set_schedule_root_node [it] Scheduler_init in
  alterSchedule 1 1 5 true (Some 2%positive) s = (s, false) /\
  alterSchedule 1 4 5 false (Some 2%positive) s =
    (set_schedule_root_node
       [mkScheduleItem None 1 4 4 5 false false false (Some 2%positive)] s,
     true).
Proof.
  intros it s.
  destruct (alterSchedule_spec 1 1 5 true (Some 2%positive) s) as [H1 _].
  destruct (alterSchedule_spec 1 4 5 false (Some 2%positive) s) as [_ H2].
  split.
  - apply H1. left. lia.
  - apply (H2 0%nat it); [lia | discriminate | reflexivity | reflexivity].
Defined.

Lemma findNodeByPID_update_node g i f s :
  (forall x, pid (f x) = pid x) ->
  findNodeByPID g (update_node i f s) = findNodeByPID g s.
Proof.
  intros Hf. unfold findNodeByPID, update_node. simpl.
  apply find_pid_from_ext. by apply map_alter_preserved.
Qed.

Lemma scheduleEnabled_update_node g i f s it :
  (forall x, pid (f x) = pid x) ->
  findNodeByPID g s = Some i ->
  schedule_root_node s !! i = Some it ->
  scheduleEnabled g (update_node i f s) = thread_enabled (f it).
Proof.
  intros Hf Hfind Hl. unfold scheduleEnabled, deref.
  rewrite findNodeByPID_update_node, Hfind by done. simpl.
  by rewrite list_lookup_alter_eq, Hl.
Qed.

(** X14 : [scheduleEnabled] after the calls that switch a schedule.  For a
    PID that resolves, it answers [true] after [enableSchedule] and after
    either form of [delaySchedule], [false] after [disableSchedule], and
    what it answered before after [alterSchedule], which never activates a
    schedule. *)
Theorem scheduleEnabled_after (g_pid : Z) (s : Scheduler) (i : nat)
    (it : ScheduleItem) (t p r : Z) (ac : bool) (cb : FunctionPointer) :
  findNodeByPID g_pid s = Some i ->
  schedule_root_node s !! i = Some it ->
  scheduleEnabled g_pid (fst (enableSchedule g_pid s)) = true /\
  scheduleEnabled g_pid (fst (disableSchedule g_pid s)) = false /\
  scheduleEnabled g_pid (fst (delaySchedule_by g_pid t s)) = true /\
  scheduleEnabled g_pid (fst (delaySchedule g_pid s)) = true /\
  scheduleEnabled g_pid (fst (alterSchedule g_pid p r ac cb s))
    = scheduleEnabled g_pid s.
Proof.
  intros Hf Hl.
  unfold enableSchedule, disableSchedule, delaySchedule_by, delaySchedule,
    delaySchedule_node, alterSchedule, alterSchedule_node.
  rewrite Hf, Hl. cbn [fst]. split_and!.
  - by rewrite (scheduleEnabled_update_node _ _ _ _ it).
  - by rewrite (scheduleEnabled_update_node _ _ _ _ it).
  - by rewrite (scheduleEnabled_update_node _ _ _ _ it).
  - by rewrite (scheduleEnabled_update_node _ _ _ _ it).
  - destruct (1 <? p); [|done]. destruct cb; [|done]. cbn [fst].
    rewrite (scheduleEnabled_update_node _ _ _ _ it) by done.
    unfold scheduleEnabled, deref. rewrite Hf. simpl. by rewrite Hl.
Qed.

Lemma scheduleEnabled_after_witness :
  let s := set_schedule_root_node [demo_item 1 3 7 0 false false true]
             Scheduler_init in
  scheduleEnabled 1 (fst (enableSchedule 1 s)) = true /\
  scheduleEnabled 1 (fst (disableSchedule 1 s)) = false /\
  scheduleEnabled 1 (fst (delaySchedule_by 1 4 s)) = true.
Proof.
  intros s.
  destruct (scheduleEnabled_after 1 s 0 (demo_item 1 3 7 0 false false true)
              4 5 0 false None) as (H1 & H2 & H3 & _);
    [reflexivity | reflexivity |].
  repeat split; assumption.
Defined.

(** An enabled item that is not due: the flag is set by the tick after the
    countdown has reached 0, and the countdown restarts at the period. *)
Lemma countdown_fires s i it :
  schedule_root_node s !! i = Some it ->
  thread_enabled it = true -> thread_fire it = false ->
  0 <= thread_time_to_wait it ->
  (forall n, (n <= Z.to_nat (thread_time_to_wait it))%nat ->
     due_after n i s = false) /\
  schedule_root_node (ticks (S (Z.to_nat (thread_time_to_wait it))) s) !! i
    = Some (set_thread_time_to_wait (thread_period it)
              (set_thread_fire true it)).
Proof.
  intros Hl He Hfire Hw. split.
  - intros n Hn. unfold due_after. rewrite ticks_lookup, Hl.
    cbn [fmap option_fmap option_map].
    rewrite iter_advance_node_countdown; [done | done | lia].
  - rewrite ticks_lookup, Hl. cbn [fmap option_fmap option_map].
    by rewrite iter_advance_node_fire.
Qed.

(** X15 : [delaySchedule] with a tick count is a one-time override.  Applied
    to a schedule that is not due, it enables it; the due flag then stays
    clear for [by_ms] ticks and is set by tick [by_ms + 1], at which point
    the countdown restarts from the unchanged period, not from [by_ms].
    [delaySchedule] without a tick count is the same call with the period
    as tick count. *)
Theorem delaySchedule_fires_once (g_pid : Z) (by_ms : Z) (s : Scheduler)
    (i : nat) (it : ScheduleItem) :
  findNodeByPID g_pid s = Some i ->
  schedule_root_node s !! i = Some it ->
  thread_fire it = false -> 0 <= by_ms ->
  let s' := fst (delaySchedule_by g_pid by_ms s) in
  (forall n, (n <= Z.to_nat by_ms)%nat -> due_after n i s' = false) /\
  schedule_root_node (ticks (S (Z.to_nat by_ms)) s') !! i
    = Some (set_thread_time_to_wait (thread_period it)
              (set_thread_fire true (set_thread_enabled true it))) /\
  delaySchedule g_pid s = delaySchedule_by g_pid (thread_period it) s.
Proof.
  intros Hf Hl Hfire Ht. cbn zeta.
  unfold delaySchedule, delaySchedule_by, delaySchedule_node.
  rewrite Hf, Hl. cbn [fst].
  destruct (countdown_fires
              (update_node i
                 (fun it0 => set_thread_enabled true
                               (set_thread_time_to_wait by_ms it0)) s)
              i (set_thread_enabled true (set_thread_time_to_wait by_ms it)))
    as [H1 H2];
    [by rewrite update_node_lookup, Hl | done | done | done |].
  split_and!; [exact H1|exact H2|done].
Qed.

Lemma delaySchedule_fires_once_witness :
  let it := demo_item 1 9 9 (-1) false false false in
  let s := set_schedule_root_node [it] Scheduler_init in
  let s' := fst (delaySchedule_by 1 2 s) in
  (forall n, (n <= 2)%nat -> due_after n 0 s' = false) /\
  schedule_root_node (ticks 3 s') !! 0%nat
    = Some (demo_item 1 9 9 (-1) true true false).
Proof.
  intros it s s'.
  destruct (delaySchedule_fires_once 1 2 s 0 it) as (H1 & H2 & _);
    [reflexivity | reflexivity | reflexivity | lia |].
  split; [exact H1|exact H2].
Defined.

(** ** Counting the schedules *)

Lemma count_nodes_from_closed (l : list ScheduleItem) (rv : Z) :
  wrap_u16 (count_nodes_from l rv) = wrap_u16 (rv + Z.of_nat (length l)) /\
  (l <> [] -> count_nodes_from l rv = wrap_u16 (rv + Z.of_nat (length l))).
Proof.
  revert rv. induction l as [|x l IH]; intros rv.
  - simpl. rewrite Z.add_0_r. by split.
  - cbn [count_nodes_from length].
    destruct (IH (wrap_u16 (rv + 1))) as [IH1 IH2].
    assert (Heq : wrap_u16 (wrap_u16 (rv + 1) + Z.of_nat (length l))
                  = wrap_u16 (rv + Z.of_nat (S (length l)))).
    { unfold wrap_u16. rewrite Zplus_mod_idemp_l. f_equal. lia. }
    split.
    + by rewrite IH1.
    + intros _. destruct l as [|y l].
      * done.
      * rewrite IH2 by done. exact Heq.
Qed.

Lemma count_enabled_from_closed (l : list ScheduleItem) (rv : Z) :
  wrap_u16 (count_enabled_from l rv)
    = wrap_u16 (rv + Z.of_nat (length (List.filter thread_enabled l))).
Proof.
  revert rv. induction l as [|x l IH]; intros rv.
  - simpl. by rewrite Z.add_0_r.
  - cbn [count_enabled_from List.filter]. rewrite IH.
    destruct (thread_enabled x); [|done].
    cbn [length]. unfold wrap_u16. rewrite Zplus_mod_idemp_l. f_equal. lia.
Qed.

Lemma count_enabled_from_range (l : list ScheduleItem) (rv : Z) :
  0 <= rv < 2 ^ 16 -> 0 <= count_enabled_from l rv < 2 ^ 16.
Proof.
  revert rv. induction l as [|x l IH]; intros rv Hrv; [done|].
  cbn [count_enabled_from]. apply IH.
  destruct (thread_enabled x); [|done].
  unfold wrap_u16. apply Z.mod_pos_bound. lia.
Qed.

Lemma filter_enabled_length (l : list ScheduleItem) :
  (length (List.filter thread_enabled l) <= length l)%nat.
Proof.
  induction l as [|x l IH]; simpl; [lia|].
  destruct (thread_enabled x); simpl; lia.
Qed.

Lemma getTotalSchedules_closed s :
  getTotalSchedules s = wrap_u16 (Z.of_nat (length (schedule_root_node s))).
Proof.
  unfold getTotalSchedules.
  destruct (schedule_root_node s) as [|x l] eqn:Hl; [done|].
  by rewrite (proj2 (count_nodes_from_closed (x :: l) 0)).
Qed.

Lemma getActiveSchedules_closed s :
  getActiveSchedules s
    = wrap_u16 (Z.of_nat (length (List.filter thread_enabled
                                    (schedule_root_node s)))).
Proof.
  unfold getActiveSchedules.
  pose proof (count_enabled_from_closed (schedule_root_node s) 0) as H.
  pose proof (count_enabled_from_range (schedule_root_node s) 0) as Hr.
  unfold wrap_u16 in H at 1. rewrite Z.mod_small in H by (apply Hr; lia).
  exact H.
Qed.

(** X16 : the two counters are 16 bits wide.  [getTotalSchedules] is the
    number of nodes and [getActiveSchedules] the number of enabled nodes,
    both modulo 65536; with fewer than 65536 nodes they are exact and the
    active count does not exceed the total. *)
Theorem schedule_counts (s : Scheduler) :
  getTotalSchedules s
    = wrap_u16 (Z.of_nat (length (schedule_root_node s))) /\
  getActiveSchedules s
    = wrap_u16 (Z.of_nat (length (List.filter thread_enabled
                                    (schedule_root_node s)))) /\
  (Z.of_nat (length (schedule_root_node s)) < 2 ^ 16 ->
   getTotalSchedules s = Z.of_nat (length (schedule_root_node s)) /\
   getActiveSchedules s
     = Z.of_nat (length (List.filter thread_enabled (schedule_root_node s))) /\
   0 <= getActiveSchedules s <= getTotalSchedules s).
Proof.
  rewrite getTotalSchedules_closed, getActiveSchedules_closed.
  split_and!; try done. intros Hlen.
  pose proof (filter_enabled_length (schedule_root_node s)) as Hf.
  unfold wrap_u16. rewrite !Z.mod_small by lia. split_and!; try done; lia.
Qed.

Lemma schedule_counts_witness :
  let s := set_schedule_root_node
             [demo_item 1 3 7 0 true false false;
              demo_item 2 5 5 1 false false false;
              demo_item 3 5 5 1 true false false] Scheduler_init in
  getTotalSchedules s = 3 /\ getActiveSchedules s = 2.
Proof.
  intros s.
  destruct (schedule_counts s) as (_ & _ & H).
  destruct H as (H1 & H2 & _); [simpl; lia|].
  split; [exact H1|exact H2].
Defined.

(** X17 : a successful [createSchedule] adds one to both counts, as long as
    the list stays shorter than 65536 nodes. *)
Theorem createSchedule_counts (sch_period recurrence : Z) (ac : bool)
    (f : positive) (s : Scheduler) :
  1 < sch_period ->
  Z.of_nat (length (schedule_root_node s)) + 1 < 2 ^ 16 ->
  let s' := snd (createSchedule sch_period recurrence ac (Some f) true s) in
  getTotalSchedules s' = getTotalSchedules s + 1 /\
  getActiveSchedules s' = getActiveSchedules s + 1.
Proof.
  intros Hp Hlen. cbn zeta.
  rewrite !getTotalSchedules_closed, !getActiveSchedules_closed.
  rewrite createSchedule_exact.
  destruct (Z.ltb_spec 1 sch_period); [|lia]. cbn [andb bool_decide].
  rewrite bool_decide_eq_true_2 by done. cbn [andb snd schedule_root_node].
  rewrite List.filter_app, !length_app. simpl.
  pose proof (filter_enabled_length (schedule_root_node s)) as Hf.
  unfold wrap_u16. rewrite !Z.mod_small by lia. lia.
Qed.

Lemma createSchedule_counts_witness :
  let s' := snd (createSchedule 10 3 true (Some 5%positive) true
                   Scheduler_init) in
  getTotalSchedules s' = getTotalSchedules Scheduler_init + 1 /\
  getActiveSchedules s' = getActiveSchedules Scheduler_init + 1.
Proof.
  apply (createSchedule_counts 10 3 true 5%positive Scheduler_init);
    simpl; lia.
Defined.

(** ** Ownership of the profiling records and teardown *)

Lemma serviceScheduledEvents_inv_heap clk s s' evs :
  serviceScheduledEvents clk s = Some (s', evs) ->
  (schedule_root_node s' = schedule_root_node s /\
   prof_heap s' = prof_heap s) \/
  (exists l1 a l2,
     schedule_root_node s = l1 ++ a :: l2 /\
     schedule_root_node s' = l1 ++ after_service a ++ l2 /\
     prof_heap s' =
       if reaped a
       then heap_without (prof_data a) (sampled_heap clk a (prof_heap s))
       else sampled_heap clk a (prof_heap s)).
Proof.
  unfold serviceScheduledEvents.
  destruct (first_due_split (schedule_root_node s))
    as [Hn|(l1 & a & l2 & Hl & Hl1 & Ha)].
  - rewrite service_scan_none_due by done. cbn [mbind option_bind].
    intros [= <- _]. by left.
  - rewrite Hl, service_scan_first_due by done. cbn [Nat.add].
    unfold service_node.
    destruct (execute_node a clk s) as [[s1 evs1]|] eqn:He;
      cbn [mbind option_bind]; [|done].
    pose proof (execute_node_heap _ _ _ _ _ He) as Hh.
    apply execute_node_inv in He as (Hl1' & _).
    assert (Hl2 : schedule_root_node
                    (update_node (length l1) (set_thread_fire false) s1)
                  = l1 ++ set_thread_fire false a :: l2).
    { apply update_node_middle. by rewrite Hl1', Hl. }
    destruct (apply_recurrence _ a _) as [s3|] eqn:Hr;
      cbn [mbind option_bind]; [|done].
    pose proof (apply_recurrence_heap a l1 l2 _ _ Hl2 Hr) as Hh3.
    apply (apply_recurrence_inv a l1 l2 _ _ Hl2) in Hr as (Hl3 & _).
    intros [= <- _]. right. exists l1, a, l2. split_and!; try done.
    simpl. rewrite Hh3. simpl. by rewrite Hh.
Qed.

Lemma heap_owned_same s s' :
  profile_pointers (schedule_root_node s')
    = profile_pointers (schedule_root_node s) ->
  dom (prof_heap s') ⊆ dom (prof_heap s) ->
  heap_owned s -> heap_owned s'.
Proof.
  intros Hp Hd Ho a Ha. rewrite Hp. apply Ho. by apply Hd.
Qed.

Lemma heap_owned_unlink s s' l1 a l2 :
  schedule_root_node s = l1 ++ a :: l2 ->
  schedule_root_node s' = l1 ++ l2 ->
  dom (prof_heap s') = dom (heap_without (prof_data a) (prof_heap s)) ->
  heap_owned s -> heap_owned s'.
Proof.
  intros Hl Hl' Hd Ho x Hx. unfold heap_owned in Ho.
  rewrite Hd in Hx. rewrite Hl in Ho. rewrite Hl'.
  unfold profile_pointers in *. rewrite omap_app in Ho |- *. simpl in Ho.
  unfold heap_without in Hx.
  destruct (prof_data a) as [pa|].
  - rewrite dom_delete_L in Hx. apply elem_of_difference in Hx as [Hx Hne].
    specialize (Ho x Hx). apply elem_of_app in Ho as [Ho|Ho].
    + apply elem_of_app. by left.
    + apply elem_of_cons in Ho as [->|Ho].
      * exfalso. apply Hne. by apply elem_of_singleton.
      * apply elem_of_app. by right.
  - by apply Ho.
Qed.

Ltac owned_by_update :=
  repeat case_match; simpl;
  first [ assumption
        | match goal with
          | H : heap_owned ?s |- heap_owned (update_node ?i ?f ?s) =>
              apply (heap_owned_same s); [|done|exact H];
              apply profile_pointers_map; simpl;
              apply map_alter_preserved; intros ?; reflexivity
          end ].

Lemma exec_heap_owned c s s' :
  heap_owned s -> exec c s = Some s' -> heap_owned s'.
Proof.
  intros Ho He. destruct c; simpl in He.
  - injection He as <-. apply (heap_owned_same s); [| |done].
    + apply createSchedule_pointers.
    + by rewrite createSchedule_prof_heap.
  - injection He as <-. unfold alterSchedule, alterSchedule_node.
    owned_by_update.
  - injection He as <-. unfold alterSchedule_autoclear. owned_by_update.
  - injection He as <-. unfold alterSchedule_callback. owned_by_update.
  - injection He as <-. unfold alterSchedulePeriod. owned_by_update.
  - injection He as <-. unfold alterScheduleRecurrence. owned_by_update.
  - injection He as <-. unfold enableSchedule. owned_by_update.
  - injection He as <-. unfold disableSchedule. owned_by_update.
  - injection He as <-. unfold delaySchedule_by, delaySchedule_node.
    owned_by_update.
  - injection He as <-. unfold delaySchedule, delaySchedule_node.
    owned_by_update.
  - destruct (removeSchedule g_pid s) as [[s1 b]|] eqn:Hr; [|done].
    injection He as <-.
    destruct (findNodeByPID g_pid s) as [i|] eqn:Hf.
    + destruct (findNodeByPID_lookup _ _ _ Hf) as (obj & Hl & _).
      rewrite (removeSchedule_found _ _ _ _ Hf Hl) in Hr.
      destruct (negb (pid obj =? currently_executing s)).
      * destruct (clearProfilingData_node _ _) as [s2|] eqn:Hc;
          cbn [mbind option_bind] in Hr; [|done].
        injection Hr as <- _.
        apply (heap_owned_unlink s s2 (take i (schedule_root_node s)) obj
                 (drop (S i) (schedule_root_node s))); [| | |done].
        -- by rewrite take_drop_middle.
        -- rewrite (clearProfilingData_node_true _ _ _ Hc). simpl.
           apply delete_take_drop.
        -- revert Hc. unfold clearProfilingData_node, heap_without.
           destruct (prof_data obj); [|by intros [= <-]].
           simpl. destruct (prof_heap s !! _); cbn [mbind option_bind]; [|done].
           by intros [= <-].
      * injection Hr as <- _. apply (heap_owned_same s); [|done|done].
        apply profile_pointers_map. simpl.
        rewrite <- (alter_lookup_insert
                      (fun it => set_thread_recurs 0 (set_autoclear true it))
                      _ _ _ Hl).
        by apply map_alter_preserved.
    + unfold removeSchedule in Hr. rewrite Hf in Hr. by injection Hr as <- _.
  - injection He as <-. apply (heap_owned_same s); [|done|done].
    apply profile_pointers_map. simpl. rewrite map_map.
    apply map_ext. apply advance_node_prof_data.
  - destruct (serviceScheduledEvents clk s) as [[s1 evs]|] eqn:Hs; [|done].
    injection He as <-.
    apply serviceScheduledEvents_inv_heap in Hs
      as [[Hl Hh]|(l1 & a & l2 & Hl & Hl' & Hh)].
    + apply (heap_owned_same s); [by rewrite Hl|by rewrite Hh|done].
    + pose proof (reaped_after_service a) as Hra.
      destruct (reaped a).
      * rewrite Hra in Hl'. simpl in Hl'.
        apply (heap_owned_unlink s s1 l1 a l2); try done.
        rewrite Hh. apply dom_heap_without. apply sampled_heap_dom.
      * destruct Hra as (a' & Hra & Hpa). rewrite Hra in Hl'.
        apply (heap_owned_same s); [| |done].
        -- apply profile_pointers_map.
           rewrite Hl', Hl, !map_app. simpl. by rewrite Hpa.
        -- by rewrite Hh, sampled_heap_dom.
  - unfold beginProfiling, beginProfiling_node in He.
    destruct (findNodeByPID g_pid s) as [i|]; [|by injection He as <-].
    destruct (schedule_root_node s !! i) as [it|] eqn:Hl;
      cbn [mbind option_bind] in He; [|done].
    destruct (prof_data it) eqn:Hp; [by injection He as <-|].
    destruct malloc_ok; [|done]. injection He as <-.
    intros a Ha. simpl in Ha |- *.
    pose proof (take_drop_middle _ _ _ Hl) as Hsplit.
    assert (Hi : length (take i (schedule_root_node s)) = i).
    { apply length_take_le. apply lookup_lt_Some in Hl. lia. }
    assert (Hroot : alter (set_prof_data (Some (fresh (dom (prof_heap s))))) i
                      (schedule_root_node s)
                    = take i (schedule_root_node s)
                      ++ set_prof_data (Some (fresh (dom (prof_heap s)))) it
                      :: drop (S i) (schedule_root_node s)).
    { rewrite <- Hsplit at 1. rewrite <- Hi at 1. apply alter_middle. }
    rewrite Hroot.
    unfold profile_pointers. rewrite omap_app. simpl.
    rewrite dom_insert_L in Ha. apply elem_of_union in Ha as [Ha|Ha].
    + apply elem_of_singleton in Ha. rewrite Ha.
      apply elem_of_app. right. by left.
    + specialize (Ho a Ha). rewrite <- Hsplit in Ho.
      unfold profile_pointers in Ho. rewrite omap_app in Ho. simpl in Ho.
      rewrite Hp in Ho. apply elem_of_app in Ho as [Ho|Ho].
      * apply elem_of_app. by left.
      * apply elem_of_app. right. by right.
  - unfold stopProfiling, stopProfiling_node in He.
    destruct (deref s (findNodeByPID g_pid s)) as [it|];
      [|by injection He as <-].
    destruct (prof_data it) as [a|]; [|by injection He as <-].
    destruct (prof_heap s !! a) eqn:Ha; cbn [mbind option_bind] in He; [|done].
    injection He as <-. apply (heap_owned_same s); [done| |done]. simpl.
    by rewrite dom_insert_lookup_L.
  - unfold clearProfilingData, clearProfilingData_node in He.
    destruct (deref s (findNodeByPID g_pid s)) as [it|];
      [|by injection He as <-].
    destruct (prof_data it) as [a|]; [|by injection He as <-].
    destruct (prof_heap s !! a); cbn [mbind option_bind] in He; [|done].
    injection He as <-. apply (heap_owned_same s); [done| |done]. simpl.
    rewrite dom_delete_L. intros x Hx.
    by apply elem_of_difference in Hx as [Hx _].
Qed.

(** X18 : no profiling record is orphaned.  In the initial state, and after
    every call of the API, each record of the store is held by a node of
    the list, so it can still be released through that node. *)
Theorem heap_owned_preserved (c : api_call) (s s' : Scheduler) :
  heap_owned Scheduler_init /\
  (heap_owned s -> exec c s = Some s' -> heap_owned s').
Proof.
  split; [|apply exec_heap_owned].
  intros a Ha. simpl in Ha. by rewrite dom_empty_L in Ha.
Qed.

Lemma heap_owned_preserved_witness :
  exists s',
    exec (RemoveSchedule 1) profiled_state = Some s' /\
    heap_owned s' /\ prof_heap s' = ∅.
Proof.
  assert (He : exec (RemoveSchedule 1) profiled_state
               = Some (mkScheduler 2 [] 0 0 0 0 ∅)) by (by vm_compute).
  eexists. split; [exact He|]. split; [|reflexivity].
  apply (heap_owned_preserved (RemoveSchedule 1) profiled_state); [|exact He].
  intros a Ha. simpl in Ha. rewrite dom_singleton_L in Ha.
  apply elem_of_singleton in Ha. subst a. simpl. by left.
Defined.

Lemma destroy_all_from_wf (l : list ScheduleItem) (s : Scheduler) :
  Forall (profile_live s) l -> NoDup (profile_pointers l) ->
  exists s',
    destroy_all_from l s = Some s' /\
    forall a,
      prof_heap s' !! a =
        if bool_decide (a ∈ profile_pointers l) then None
        else prof_heap s !! a.
Proof.
  revert s. induction l as [|x l IH]; intros s Hlive Hnd.
  - exists s. split; [done|]. intros a.
    case_bool_decide as H; [by apply elem_of_nil in H|done].
  - apply Forall_cons in Hlive as [Hx Hlive].
    cbn [destroy_all_from]. rewrite clearProfilingData_node_live by done.
    cbn [mbind option_bind].
    set (s1 := set_prof_heap (heap_without (prof_data x) (prof_heap s)) s).
    unfold profile_pointers in *. simpl in Hnd.
    destruct (prof_data x) as [px|] eqn:Hpx.
    + apply NoDup_cons in Hnd as [Hnin Hnd].
      destruct (IH s1) as (s' & Hs' & Hlook); [|done|].
      { rewrite Forall_forall in Hlive |- *. intros y Hy.
        specialize (Hlive y Hy). unfold profile_live in *.
        destruct (prof_data y) as [py|] eqn:Hpy; [|done]. simpl.
        rewrite lookup_delete_ne; [done|]. intros ->. apply Hnin.
        apply list_elem_of_omap. by exists y. }
      exists s'. split; [done|]. intros a. rewrite Hlook. simpl.
      rewrite Hpx.
      destruct (decide (a = px)) as [->|Hne].
      * rewrite (bool_decide_eq_true_2 (px ∈ px :: _)) by (by left).
        case_bool_decide; [done|]. simpl. apply lookup_delete_eq.
      * case_bool_decide as H1; case_bool_decide as H2; try done.
        -- exfalso. apply H2. by right.
        -- exfalso. apply elem_of_cons in H2 as [H2|H2]; [done|]. by apply H1.
        -- simpl. by rewrite lookup_delete_ne.
    + destruct (IH s1) as (s' & Hs' & Hlook); [done|done|].
      exists s'. split; [done|]. intros a. rewrite Hlook. simpl.
      by rewrite Hpx.
Qed.

Lemma destroy_all_from_Some (l : list ScheduleItem) (s s' : Scheduler) :
  destroy_all_from l s = Some s' ->
  Forall (profile_live s) l /\ NoDup (profile_pointers l).
Proof.
  revert s. induction l as [|x l IH]; intros s.
  - intros _. split; constructor.
  - cbn [destroy_all_from].
    destruct (clearProfilingData_node (Some x) s) as [s1|] eqn:Hc;
      cbn [mbind option_bind]; [|done].
    intros Hd. destruct (IH s1 Hd) as [Hlive Hnd].
    unfold clearProfilingData_node in Hc. unfold profile_pointers in *.
    simpl. destruct (prof_data x) as [px|] eqn:Hpx.
    + destruct (prof_heap s !! px) as [r|] eqn:Hr;
        cbn [mbind option_bind] in Hc; [|done].
      injection Hc as <-.
      assert (Hmono : forall y, profile_live
                  (set_prof_heap (delete px (prof_heap s)) s) y ->
                profile_live s y /\ prof_data y <> Some px).
      { intros y. unfold profile_live. simpl.
        destruct (prof_data y) as [py|]; [|done].
        intros [r' Hr']. apply lookup_delete_Some in Hr' as [Hne Hr'].
        split; [by eexists|congruence]. }
      split.
      * apply Forall_cons. split.
        -- unfold profile_live. rewrite Hpx. by eexists.
        -- eapply Forall_impl; [exact Hlive|]. intros y Hy.
           by apply Hmono.
      * apply NoDup_cons. split; [|done].
        intros Hin. apply list_elem_of_omap in Hin as (y & Hy & Hpy).
        rewrite Forall_forall in Hlive.
        destruct (Hmono y (Hlive y Hy)) as [_ Hne]. done.
    + injection Hc as <-. split; [|done].
      apply Forall_cons. split; [|done].
      unfold profile_live. by rewrite Hpx.
Qed.

(** X19 : the destructor.  [destroyAllScheduleItems] is defined exactly
    when every profiling pointer of the list is live and no record is held
    twice (otherwise it frees a record that has been freed); it then
    releases the record of every node and no other, so when every record is
    held by a node it leaves the store empty. *)
Theorem destroyAllScheduleItems_releases (s : Scheduler) :
  (is_Some (destroyAllScheduleItems s) <-> profiles_wf s) /\
  (forall h, destroyAllScheduleItems s = Some h ->
     (forall a, h !! a =
        if bool_decide (a ∈ profile_pointers (schedule_root_node s))
        then None else prof_heap s !! a) /\
     (heap_owned s -> h = ∅)).
Proof.
  unfold destroyAllScheduleItems. split.
  - split.
    + intros [h Hh].
      destruct (destroy_all_from (schedule_root_node s) s) as [s'|] eqn:Hd;
        [|done].
      by apply destroy_all_from_Some in Hd.
    + intros [Hlive Hnd].
      destruct (destroy_all_from_wf _ s Hlive Hnd) as (s' & -> & _).
      by eexists.
  - intros h Hh.
    destruct (destroy_all_from (schedule_root_node s) s) as [s'|] eqn:Hd;
      [|done].
    injection Hh as <-.
    pose proof (destroy_all_from_Some _ _ _ Hd) as [Hlive Hnd].
    destruct (destroy_all_from_wf _ s Hlive Hnd) as (s'' & Hd' & Hlook).
    rewrite Hd in Hd'. injection Hd' as <-.
    split; [exact Hlook|].
    intros Ho. apply map_empty. intros a. rewrite Hlook.
    case_bool_decide as Hin; [done|].
    apply not_elem_of_dom. intros Ha. apply Hin. by apply Ho.
Qed.

Lemma destroyAllScheduleItems_releases_witness :
  is_Some (destroyAllScheduleItems profiled_state) /\
  (forall h, destroyAllScheduleItems profiled_state = Some h -> h = ∅).
Proof.
  destruct (destroyAllScheduleItems_releases profiled_state) as [H1 H2].
  split.
  - apply H1. split.
    + apply Forall_singleton. by exists fresh_profile.
    + apply NoDup_singleton.
  - intros h Hh. apply (proj2 (H2 h Hh)).
    intros a Ha. simpl in Ha. rewrite dom_singleton_L in Ha.
    apply elem_of_singleton in Ha. subst a. simpl. by left.
Defined.

(** ** Whole periods: ticks and dispatches *)













(** ** Starting and stopping the profiler *)

(** X22 : [beginProfiling] on a schedule without a record allocates one at
    an address that was not in use, initialised as a fresh record, and
    stores the address in the node; [scheduleBeingProfiled] then answers
    [true].  A second [beginProfiling] changes nothing: it neither
    allocates nor resets the statistics. *)
Theorem beginProfiling_attaches (g_pid : Z) (s : Scheduler) (i : nat)
    (it : ScheduleItem) :
  findNodeByPID g_pid s = Some i ->
  schedule_root_node s !! i = Some it ->
  prof_data it = None ->
  exists s' p,
    beginProfiling g_pid true s = Some s' /\
    prof_heap s !! p = None /\
    schedule_root_node s'
      = <[i := set_prof_data (Some p) it]> (schedule_root_node s) /\
    prof_heap s' = <[p := fresh_profile]> (prof_heap s) /\
    scheduleBeingProfiled g_pid s' = Some true /\
    forall malloc_ok, beginProfiling g_pid malloc_ok s' = Some s'.
Proof.
  intros Hf Hl Hp.
  set (p := fresh (dom (prof_heap s))).
  set (s' := set_prof_heap (<[p := fresh_profile]> (prof_heap s))
               (update_node i (set_prof_data (Some p)) s)).
  assert (Hf' : findNodeByPID g_pid s' = Some i).
  { rewrite <- Hf. unfold s', findNodeByPID. simpl.
    apply find_pid_from_ext. by apply map_alter_preserved. }
  assert (Hl' : schedule_root_node s' !! i = Some (set_prof_data (Some p) it)).
  { unfold s'. cbn [schedule_root_node set_prof_heap].
    by rewrite update_node_lookup, Hl. }
  exists s', p. split_and!.
  - unfold beginProfiling, beginProfiling_node. rewrite Hf, Hl.
    cbn [mbind option_bind]. by rewrite Hp.
  - apply not_elem_of_dom. apply is_fresh.
  - unfold s'. cbn [schedule_root_node set_prof_heap]. unfold update_node.
    cbn [schedule_root_node set_schedule_root_node].
    by rewrite (alter_lookup_insert _ _ _ _ Hl).
  - done.
  - unfold scheduleBeingProfiled, deref. rewrite Hf'. cbn [mbind option_bind].
    rewrite Hl'. cbn [scheduleBeingProfiled_node prof_data set_prof_data].
    unfold s'. cbn [prof_heap set_prof_heap]. by rewrite lookup_insert_eq.
  - intros ok. unfold beginProfiling, beginProfiling_node. rewrite Hf', Hl'.
    by cbn [mbind option_bind prof_data set_prof_data].
Qed.

Lemma beginProfiling_attaches_witness :
  let s := snd (createSchedule 10 (-1) false (Some 1%positive) true
                  Scheduler_init) in
  exists s' p,
    beginProfiling 1 true s = Some s' /\
    prof_heap s' = <[p := fresh_profile]> (prof_heap s) /\
    scheduleBeingProfiled 1 s' = Some true /\
    beginProfiling 1 false s' = Some s'.
Proof.
  intros s.
  destruct (beginProfiling_attaches 1 s 0
              (mkScheduleItem None 1 10 10 (-1) true false false
                 (Some 1%positive)))
    as (s' & p & H1 & _ & _ & H2 & H3 & H4);
    [reflexivity | reflexivity | reflexivity |].
  exists s', p. repeat split; try assumption. apply H4.
Defined.

(** X23 : [stopProfiling] keeps the statistics and clears the active flag
    of the record, so [scheduleBeingProfiled] answers [false].  Profiling
    cannot be started again: a later [beginProfiling] finds the record in
    place and changes nothing, so the statistics are neither wiped nor
    updated any more. *)
Theorem stopProfiling_is_final (g_pid : Z) (s : Scheduler) (i : nat)
    (it : ScheduleItem) (pa : positive) (r : ScheduleProfile) :
  findNodeByPID g_pid s = Some i ->
  schedule_root_node s !! i = Some it ->
  prof_data it = Some pa ->
  prof_heap s !! pa = Some r ->
  exists s',
    stopProfiling g_pid s = Some s' /\
    schedule_root_node s' = schedule_root_node s /\
    prof_heap s' =
      <[pa := mkScheduleProfile (last_time_micros r) (worst_time_micros r)
                (best_time_micros r) (execution_count r) false]> (prof_heap s) /\
    scheduleBeingProfiled g_pid s' = Some false /\
    (forall malloc_ok, beginProfiling g_pid malloc_ok s' = Some s') /\
    stopProfiling g_pid s' = Some s'.
Proof.
  intros Hf Hl Hp Hr.
  set (r' := mkScheduleProfile (last_time_micros r) (worst_time_micros r)
               (best_time_micros r) (execution_count r) false).
  exists (set_prof_heap (<[pa := r']> (prof_heap s)) s).
  unfold stopProfiling, scheduleBeingProfiled, beginProfiling,
    beginProfiling_node, deref, findNodeByPID in *.
  cbn [schedule_root_node set_prof_heap prof_heap].
  rewrite Hf. cbn [mbind option_bind]. rewrite Hl.
  cbn [stopProfiling_node scheduleBeingProfiled_node mbind option_bind].
  rewrite Hp, Hr. cbn [mbind option_bind prof_heap set_prof_heap].
  rewrite lookup_insert_eq. cbn [mbind option_bind fmap option_fmap option_map].
  split_and!; try done.
  rewrite insert_insert_eq. by destruct s.
Qed.

Lemma stopProfiling_is_final_witness :
  exists s',
    stopProfiling 1 profiled_state = Some s' /\
    scheduleBeingProfiled 1 s' = Some false /\
    beginProfiling 1 true s' = Some s'.
Proof.
  destruct (stopProfiling_is_final 1 profiled_state 0 profiled_item
              1%positive fresh_profile)
    as (s' & H1 & _ & _ & H2 & H3 & _);
    [reflexivity | reflexivity | reflexivity | reflexivity |].
  exists s'. repeat split; try assumption. apply H3.
Defined.

(** X24 : the single-field forms of [alterSchedule], on a PID that
    resolves.  Changing the period (which must exceed 1) restarts the
    countdown at the new period and clears the due flag; changing the
    recurrence clears the due flag and keeps the countdown; changing the
    auto-clear flag or the callback (which must not be NULL) touches that
    field only, so a pending execution stays pending. *)
Theorem alterSchedule_fields (g_pid : Z) (s : Scheduler) (i : nat)
    (it : ScheduleItem) (p r : Z) (ac : bool) (f : positive) :
  findNodeByPID g_pid s = Some i ->
  schedule_root_node s !! i = Some it ->
  (1 < p ->
     alterSchedulePeriod g_pid p s =
       (set_schedule_root_node
          (<[i := set_thread_time_to_wait p
                    (set_thread_period p (set_thread_fire false it))]>
             (schedule_root_node s)) s, true)) /\
  (p <= 1 -> alterSchedulePeriod g_pid p s = (s, false)) /\
  alterScheduleRecurrence g_pid r s =
    (set_schedule_root_node
       (<[i := set_thread_recurs r (set_thread_fire false it)]>
          (schedule_root_node s)) s, true) /\
  alterSchedule_autoclear g_pid ac s =
    (set_schedule_root_node
       (<[i := set_autoclear ac it]> (schedule_root_node s)) s, true) /\
  alterSchedule_callback g_pid (Some f) s =
    (set_schedule_root_node
       (<[i := set_schedule_callback (Some f) it]> (schedule_root_node s)) s,
     true) /\
  alterSchedule_callback g_pid None s = (s, false).
Proof.
  intros Hf Hl.
  unfold alterSchedulePeriod, alterScheduleRecurrence, alterSchedule_autoclear,
    alterSchedule_callback, update_node.
  rewrite Hf. split_and!; try done.
  - intros Hp. destruct (Z.ltb_spec 1 p); [|lia].
    by rewrite (alter_lookup_insert _ _ _ _ Hl).
  - intros Hp. by destruct (Z.ltb_spec 1 p); [lia|].
  - by rewrite (alter_lookup_insert _ _ _ _ Hl).
  - by rewrite (alter_lookup_insert _ _ _ _ Hl).
  - by rewrite (alter_lookup_insert _ _ _ _ Hl).
Qed.

Lemma alterSchedule_fields_witness :
  let it := demo_item 1 3 7 2 true true false in
  let s := set_schedule_root_node [it] Scheduler_init in
  alterSchedulePeriod 1 4 s =
    (set_schedule_root_node [demo_item 1 4 4 2 true false false] s, true) /\
  alterSchedulePeriod 1 1 s = (s, false) /\
  alterScheduleRecurrence 1 5 s =
    (set_schedule_root_node [demo_item 1 3 7 5 true false false] s, true).
Proof.
  intros it s.
  destruct (alterSchedule_fields 1 s 0 it 4 5 true 1%positive)
    as (H1 & _ & H3 & _); [reflexivity | reflexivity |].
  destruct (alterSchedule_fields 1 s 0 it 1 5 true 1%positive)
    as (_ & H2 & _); [reflexivity | reflexivity |].
  split; [apply H1; lia|]. split; [apply H2; lia|exact H3].
Defined.

(** ** Safety of the profiling pointers *)

(** X25 : as long as [clearProfilingData] is not called, no profiling
    pointer dangles and no record is held by two nodes: this holds in the
    initial state and is kept by every other call of the API, so none of
    them reads, writes or frees a record that has been freed. *)
Theorem profiles_wf_preserved (c : api_call) (s s' : Scheduler) :
  profiles_wf Scheduler_init /\
  (clears_profile c = false -> profiles_wf s -> exec c s = Some s' ->
   profiles_wf s').
Proof.
  split; [split; constructor|]. apply exec_profiles_wf.
Qed.

Lemma profiles_wf_preserved_witness :
  let s := snd (createSchedule 10 (-1) false (Some 1%positive) true
                  Scheduler_init) in
  exec (BeginProfiling 1 true) s = Some profiled_state /\
  profiles_wf profiled_state.
Proof.
  intros s.
  assert (He : exec (BeginProfiling 1 true) s = Some profiled_state)
    by (by vm_compute).
  split; [exact He|].
  apply (profiles_wf_preserved (BeginProfiling 1 true) s);
    [reflexivity | | exact He].
  split; [apply Forall_singleton; exact I|constructor].
Defined.
